(** * Stroke: the read-modify-write rasterizer of [tiliqua/raster_stroke.py]

    A shallow embedding of [Stroke.elaborate]: the combinational address
    mapper, the eight-state bus-master FSM and its synchronous register
    updates, followed by the properties of the drawing logic. *)

From Stdlib Require Import ZArith List Bool Lia.
From coqutil Require Import Z.bitblast.
Import ListNotations.
Local Open Scope Z_scope.

(** ** Signal shapes

    Amaranth values are modelled as integers.  Assigning an expression to a
    signal converts it to the signal's shape: [unsigned w] keeps the low [w]
    bits, [signed w] keeps them and reads them in two's complement. *)

Definition unsigned (w v : Z) : Z := v mod 2 ^ w.

Definition signed (w v : Z) : Z := (v + 2 ^ (w - 1)) mod 2 ^ w - 2 ^ (w - 1).

(** [v[lo:hi]], an unsigned slice. *)
Definition bits (lo hi v : Z) : Z := Z.land (Z.shiftr v lo) (Z.ones (hi - lo)).

(** [Cat(a, b)] where [a] is [wa] bits wide: the first operand sits in the
    low bits. *)
Definition Cat (wa a b : Z) : Z := Z.lor a (Z.shiftl b wa).

(** ** Framebuffer geometry

    [DMAFramebuffer] is an external collaborator; the fields that
    [Stroke.elaborate] reads are taken as parameters. *)

Record DMAFramebuffer : Set := mkFb {
  fb_base         : Z;
  h_active        : Z;   (* fb.timings.h_active *)
  v_active        : Z;   (* fb.timings.v_active *)
  active_pixels   : Z;   (* fb.timings.active_pixels *)
  bytes_per_pixel : Z;
  addr_width      : Z    (* fb.bus.addr_width *)
}.

(** ** Signals *)

(** Tunable registers, driven from outside the component. *)
Record Config : Set := mkConfig {
  hue         : Z;      (* Signal(4) *)
  intensity   : Z;      (* Signal(4) *)
  scale_x     : Z;      (* Signal(4) *)
  scale_y     : Z;      (* Signal(4) *)
  x_offset    : Z;      (* Signal(signed(16)) *)
  y_offset    : Z;      (* Signal(signed(16)) *)
  rotate_left : bool;
  enable      : bool
}.

(** Everything the component samples in one clock cycle. *)
Record Inputs : Set := mkInputs {
  cfg       : Config;
  fb_enable : bool;     (* fb.enable, drives the ResetInserter *)
  valid     : bool;     (* point_stream.valid *)
  payload0  : Z;        (* point_stream.payload[0].as_value(), x *)
  payload1  : Z;        (* y *)
  payload2  : Z;        (* intensity modulation *)
  payload3  : Z;        (* color modulation *)
  bus_ack   : bool;
  bus_dat_r : Z
}.

Inductive FsmState : Set :=
  OFF | LATCH0 | LATCH1 | READ | WAIT | WAIT2 | WAIT3 | WRITE.

(** The registers of the [sync] domain. *)
Record Regs : Set := mkRegs {
  fsm              : FsmState;
  sample_x         : Z;   (* Signal(signed(16)) *)
  sample_y         : Z;   (* Signal(signed(16)) *)
  sample_p         : Z;   (* Signal(signed(16)) *)
  sample_c         : Z;   (* Signal(signed(16)) *)
  sample_intensity : Z;   (* Signal(4) *)
  px_read          : Z;   (* Signal(32) *)
  px_sum           : Z;   (* Signal(16) *)
  bus_sel          : Z;   (* 4 bits *)
  bus_adr          : Z    (* addr_width bits *)
}.

(** Combinational outputs of one cycle. *)
Record Outputs : Set := mkOutputs {
  ready     : bool;       (* point_stream.ready *)
  bus_stb   : bool;
  bus_cyc   : bool;
  bus_we    : bool;
  bus_dat_w : Z
}.

(** Values after reset: every signal has [init=0] and the FSM starts in its
    first state. *)
Definition reset_regs : Regs := mkRegs OFF 0 0 0 0 0 0 0 0 0.

Section Stroke.

Variable fb : DMAFramebuffer.

Definition fb_len_words : Z := (active_pixels fb * bytes_per_pixel fb) / 4.
Definition fb_hwords : Z := (h_active fb * bytes_per_pixel fb) / 4.

(** *** Pixel position (combinational) *)

Definition subpix_shift (rot : bool) (r : Regs) : Z :=
  if rot then unsigned 6 (bits 0 2 (- sample_y r) * 8)
  else unsigned 6 (bits 0 2 (sample_x r) * 8).

Definition x_offs (rot : bool) (r : Regs) : Z :=
  if rot then unsigned 16 (fb_hwords / 2 + Z.shiftr (- sample_y r) 2)
  else unsigned 16 (fb_hwords / 2 + Z.shiftr (sample_x r) 2).

Definition y_offs (rot : bool) (r : Regs) : Z :=
  if rot then unsigned 16 (sample_x r + Z.shiftr (v_active fb) 1)
  else unsigned 16 (sample_y r + Z.shiftr (v_active fb) 1).

Definition pixel_offs (rot : bool) (r : Regs) : Z :=
  unsigned 32 (y_offs rot r * fb_hwords + x_offs rot r).

(** The guard of state LATCH1. *)
Definition in_bounds (rot : bool) (r : Regs) : bool :=
  (x_offs rot r <? fb_hwords) && (y_offs rot r <? v_active fb).

(** *** The drawing logic of state WRITE *)

Definition new_color (c : Config) (r : Regs) : Z :=
  unsigned 4 (Z.shiftr (sample_c r) 10 + hue c).

Definition white : Z := unsigned 4 0xf.

(** [px_sum[4:8] + sample_intensity] *)
Definition intensity_sum (r : Regs) : Z := bits 4 8 (px_sum r) + sample_intensity r.

Definition write_word (c : Config) (r : Regs) : Z :=
  let sh := subpix_shift (rotate_left c) r in
  if 0xF <=? intensity_sum r then
    unsigned 32
      (Z.lor (Z.land (px_read r) (Z.lnot (Z.shiftl 0xFF sh)))
             (Z.shiftl (Cat 4 (new_color c r) white) sh))
  else
    unsigned 32
      (Z.lor (Z.land (px_read r) (Z.lnot (Z.shiftl 0xFF sh)))
             (Z.shiftl (Cat 4 (new_color c r) (intensity_sum r)) sh)).

(** *** Combinational outputs, per FSM state *)

Definition outputs (c : Config) (r : Regs) : Outputs :=
  match fsm r with
  | LATCH0 => mkOutputs true false false false 0
  | READ   => mkOutputs false true true false 0
  | WRITE  => mkOutputs false true true true (write_word c r)
  | _      => mkOutputs false false false false 0
  end.

(** *** Synchronous update: one rising clock edge *)

Definition set_fsm (st : FsmState) (r : Regs) : Regs :=
  mkRegs st (sample_x r) (sample_y r) (sample_p r) (sample_c r)
         (sample_intensity r) (px_read r) (px_sum r) (bus_sel r) (bus_adr r).

Definition latch_sample (i : Inputs) (r : Regs) : Regs :=
  mkRegs LATCH1
         (signed 16 (Z.shiftr (payload0 i) (scale_x (cfg i)) + x_offset (cfg i)))
         (signed 16 (Z.shiftr (payload1 i) (scale_y (cfg i)) + y_offset (cfg i)))
         (signed 16 (payload2 i))
         (signed 16 (payload3 i))
         (unsigned 4 (intensity (cfg i)))
         (px_read r) (px_sum r) (bus_sel r) (bus_adr r).

Definition latch_address (rot : bool) (r : Regs) : Regs :=
  mkRegs READ (sample_x r) (sample_y r) (sample_p r) (sample_c r)
         (sample_intensity r) (px_read r) (px_sum r)
         (unsigned 4 0xf)
         (unsigned (addr_width fb) (fb_base fb + pixel_offs rot r)).

Definition latch_read (i : Inputs) (r : Regs) : Regs :=
  mkRegs WAIT (sample_x r) (sample_y r) (sample_p r) (sample_c r)
         (sample_intensity r)
         (unsigned 32 (bus_dat_r i))
         (unsigned 16
            (Z.land (Z.shiftr (bus_dat_r i) (subpix_shift (rotate_left (cfg i)) r)) 0xff))
         (bus_sel r) (bus_adr r).

Definition step (r : Regs) (i : Inputs) : Regs :=
  if negb (fb_enable i) then reset_regs
  else
    match fsm r with
    | OFF    => if enable (cfg i) then set_fsm LATCH0 r else r
    | LATCH0 => if valid i then latch_sample i r else r
    | LATCH1 => if in_bounds (rotate_left (cfg i)) r
                then latch_address (rotate_left (cfg i)) r
                else set_fsm LATCH0 r
    | READ   => if bus_stb (outputs (cfg i) r) && bus_ack i
                then latch_read i r else r
    | WAIT   => set_fsm WAIT2 r
    | WAIT2  => set_fsm WAIT3 r
    | WAIT3  => set_fsm WRITE r
    | WRITE  => if bus_stb (outputs (cfg i) r) && bus_ack i
                then set_fsm LATCH0 r else r
    end.

Definition run (r : Regs) (ins : list Inputs) : Regs := fold_left step ins r.

End Stroke.

(** ** Packed pixels

    Accessors used to state what the drawing logic does to a framebuffer
    word; [pixel_byte] is the expression captured into [px_sum] in state
    READ, [insert_byte] the masked update driven on [bus.dat_w]. *)

Definition pixel_byte (sh w : Z) : Z := Z.land (Z.shiftr w sh) 0xff.

Definition insert_byte (sh w b : Z) : Z :=
  unsigned 32 (Z.lor (Z.land w (Z.lnot (Z.shiftl 0xFF sh))) (Z.shiftl b sh)).

(** The byte that WRITE packs for the addressed pixel. *)
Definition new_byte (c : Config) (r : Regs) : Z :=
  Cat 4 (new_color c r) (Z.min 15 (intensity_sum r)).

(** ** Register ranges *)

Definition wf_regs (r : Regs) : Prop :=
  (- 32768 <= sample_x r < 32768) /\
  (- 32768 <= sample_y r < 32768) /\
  (- 32768 <= sample_c r < 32768) /\
  (0 <= sample_intensity r < 16) /\
  (0 <= px_read r < 2 ^ 32) /\
  (0 <= px_sum r < 2 ^ 16).

Inductive reachable (fb : DMAFramebuffer) : Regs -> Prop :=
| reach_reset : reachable fb reset_regs
| reach_step r i : reachable fb r -> reachable fb (step fb r i).

(** The four registers that hold the latched draw sample. *)
Definition sample_regs (r : Regs) : Z * Z * Z * Z :=
  (sample_x r, sample_y r, sample_c r, sample_intensity r).

(** ** The bus protocol, as an observer of the interface

    A monitor that sees only the component's outputs and inputs of each
    cycle.  [Free]: no point is held.  [Held]: a point was accepted and no
    request has been made for it.  [Reading]: its read is outstanding.
    [ReadDone k]: its read was acknowledged and [k] idle cycles have passed
    since.  [None] flags a violation. *)

Inductive Phase : Set := Free | Held | Reading | ReadDone (k : nat).

Definition mon_step (ph : Phase) (o : Outputs) (i : Inputs) : option Phase :=
  if xorb (bus_stb o) (bus_cyc o) then None
  else
    let nxt :=
      match ph with
      | Free =>
          if bus_stb o then None
          else if ready o && valid i then Some Held else Some Free
      | Held =>
          if bus_stb o then
            if bus_we o || ready o then None
            else if bus_ack i then Some (ReadDone 0) else Some Reading
          else if ready o then (if valid i then Some Held else Some Free)
          else Some Held
      | Reading =>
          if bus_stb o && negb (bus_we o) && negb (ready o)
          then (if bus_ack i then Some (ReadDone 0) else Some Reading)
          else None
      | ReadDone k =>
          if ready o then None
          else if bus_stb o then
            if bus_we o && (3 <=? k)%nat
            then (if bus_ack i then Some Free else Some (ReadDone k))
            else None
          else Some (ReadDone (S k))
      end in
    if fb_enable i then nxt else option_map (fun _ => Free) nxt.

Fixpoint mon_run (fb : DMAFramebuffer) (ph : Phase) (r : Regs) (ins : list Inputs) : bool :=
  match ins with
  | [] => true
  | i :: rest =>
      match mon_step ph (outputs (cfg i) r) i with
      | None => false
      | Some ph' => mon_run fb ph' (step fb r i) rest
      end
  end.

(** The monitor phases that can accompany each FSM state. *)
Definition sim (ph : Phase) (r : Regs) : Prop :=
  match fsm r with
  | OFF    => ph = Free
  | LATCH0 => ph = Free \/ ph = Held
  | LATCH1 => ph = Held
  | READ   => ph = Held \/ ph = Reading
  | WAIT   => ph = ReadDone 0
  | WAIT2  => ph = ReadDone 1
  | WAIT3  => ph = ReadDone 2
  | WRITE  => ph = ReadDone 3
  end.

(** ** The engine attached to a memory *)

(** Modelled from the spec: the shared framebuffer memory, a word-addressed
    store of 32-bit words. *)
Definition Memory : Set := Z -> Z.

(** Modelled from the spec: the external memory resource behind the bus
    master interface (word-addressed, 32-bit data, byte-select granularity,
    strobe/acknowledge handshake).  [sel_mask] expands the four select bits
    to byte lanes; an acknowledged write replaces the selected lanes of the
    addressed word. *)
Definition sel_mask (sel : Z) : Z :=
  Z.lor (if Z.testbit sel 0 then 0xFF else 0)
    (Z.lor (if Z.testbit sel 1 then 0xFF00 else 0)
       (Z.lor (if Z.testbit sel 2 then 0xFF0000 else 0)
              (if Z.testbit sel 3 then 0xFF000000 else 0))).

(** Modelled from the spec: an acknowledged write of [dat] at word [adr]
    with byte select [sel]. *)
Definition mem_write (m : Memory) (adr sel dat : Z) : Memory :=
  fun a =>
    if a =? adr
    then Z.lor (Z.land (m a) (Z.lnot (sel_mask sel))) (Z.land dat (sel_mask sel))
    else m a.

(** What the surroundings decide in one cycle: the configuration, the
    framebuffer enable, the point stream, and whether the memory answers a
    request made in this cycle. *)
Record Env : Set := mkEnv {
  env_cfg       : Config;
  env_fb_enable : bool;
  env_valid     : bool;
  env_p0        : Z;
  env_p1        : Z;
  env_p2        : Z;
  env_p3        : Z;
  env_ack       : bool
}.

(** Modelled from the spec: the memory acknowledges only a request
    ([cyc] and [stb]) and presents the addressed word on [dat_r]. *)
Definition sys_inputs (fb : DMAFramebuffer) (r : Regs) (m : Memory) (e : Env) : Inputs :=
  let o := outputs (env_cfg e) r in
  mkInputs (env_cfg e) (env_fb_enable e) (env_valid e)
           (env_p0 e) (env_p1 e) (env_p2 e) (env_p3 e)
           (bus_cyc o && bus_stb o && env_ack e)
           (m (bus_adr r)).

Definition sys_step (fb : DMAFramebuffer) (s : Regs * Memory) (e : Env) : Regs * Memory :=
  let o := outputs (env_cfg e) (fst s) in
  let i := sys_inputs fb (fst s) (snd s) e in
  (step fb (fst s) i,
   if bus_cyc o && bus_stb o && bus_we o && bus_ack i
   then mem_write (snd s) (bus_adr (fst s)) (bus_sel (fst s)) (bus_dat_w o)
   else snd s).

Definition sys_run (fb : DMAFramebuffer) (s : Regs * Memory) (es : list Env) : Regs * Memory :=
  fold_left (sys_step fb) es s.

(** One point [(p0, p1, p2, p3)] held valid on the stream under a fixed
    configuration, with the framebuffer enabled. *)
Definition env_draw (c : Config) (p0 p1 p2 p3 : Z) (ack : bool) : Env :=
  mkEnv c true true p0 p1 p2 p3 ack.

(** The cycles of one in-bounds draw: capture, bounds check, a read that is
    acknowledged after [d1] stalled cycles, the three wait states, and a
    write acknowledged after [d2] stalled cycles. *)
Definition draw_schedule (c : Config) (p0 p1 p2 p3 : Z) (d : nat * nat) : list Env :=
  [env_draw c p0 p1 p2 p3 false; env_draw c p0 p1 p2 p3 false]
  ++ repeat (env_draw c p0 p1 p2 p3 false) (fst d) ++ [env_draw c p0 p1 p2 p3 true]
  ++ [env_draw c p0 p1 p2 p3 true; env_draw c p0 p1 p2 p3 false; env_draw c p0 p1 p2 p3 true]
  ++ repeat (env_draw c p0 p1 p2 p3 false) (snd d) ++ [env_draw c p0 p1 p2 p3 true].

(** The sample registers that capturing [(p0, p1, p2, p3)] under [c]
    produces. *)
Definition latched (c : Config) (p0 p1 p2 p3 : Z) (r : Regs) : Regs :=
  latch_sample (mkInputs c true true p0 p1 p2 p3 false 0) r.

(** The state in which the write of the captured point is driven, after it
    was captured from [r] and its word read from [m]. *)
Definition write_state (fb : DMAFramebuffer) (c : Config) (p0 p1 p2 p3 : Z)
    (r : Regs) (m : Memory) : Regs :=
  let r1 := latch_address fb (rotate_left c) (latched c p0 p1 p2 p3 r) in
  set_fsm WRITE
    (latch_read (mkInputs c true true p0 p1 p2 p3 true (m (bus_adr r1))) r1).

(** The word address issued for the sample held in [r]. *)
Definition word_address (fb : DMAFramebuffer) (rot : bool) (r : Regs) : Z :=
  bus_adr (latch_address fb rot r).

(** ** Configuration fields by the way they are consumed *)

(** Two configurations agree on the fields read combinationally. *)
Definition same_live (c c' : Config) : Prop :=
  hue c = hue c' /\ rotate_left c = rotate_left c'.

(** Two input vectors agree on everything but the fields sampled at point
    capture (intensity step, scales, offsets). *)
Definition same_but_captured (i i' : Inputs) : Prop :=
  same_live (cfg i) (cfg i') /\ enable (cfg i) = enable (cfg i') /\
  fb_enable i = fb_enable i' /\ valid i = valid i' /\
  payload0 i = payload0 i' /\ payload1 i = payload1 i' /\
  payload2 i = payload2 i' /\ payload3 i = payload3 i' /\
  bus_ack i = bus_ack i' /\ bus_dat_r i = bus_dat_r i'.

(** Two input vectors agree on everything but [enable]. *)
Definition same_but_enable (i i' : Inputs) : Prop :=
  same_live (cfg i) (cfg i') /\
  intensity (cfg i) = intensity (cfg i') /\
  scale_x (cfg i) = scale_x (cfg i') /\ scale_y (cfg i) = scale_y (cfg i') /\
  x_offset (cfg i) = x_offset (cfg i') /\ y_offset (cfg i) = y_offset (cfg i') /\
  fb_enable i = fb_enable i' /\ valid i = valid i' /\
  payload0 i = payload0 i' /\ payload1 i = payload1 i' /\
  payload2 i = payload2 i' /\ payload3 i = payload3 i' /\
  bus_ack i = bus_ack i' /\ bus_dat_r i = bus_dat_r i'.

(** ** A small framebuffer for worked examples

    16 words (64 one-byte pixels) wide, 32 lines high, based at word 0 on a
    22-bit address bus. *)

Definition demo_fb : DMAFramebuffer := mkFb 0 64 32 2048 1 22.

Definition demo_cfg (step_ : Z) : Config := mkConfig 5 step_ 0 0 0 0 false true.

Definition demo_in (c : Config) (x y : Z) (ack : bool) (dat : Z) : Inputs :=
  mkInputs c true true x y 0 0 ack dat.

(** From reset to state WRITE for the point (0, 0) captured with intensity
    step 1 over the word [0x00000000]; the intensity step is then
    reconfigured to 8 while the transaction is in progress. *)
Definition demo_write_state : Regs :=
  run demo_fb reset_regs
      [demo_in (demo_cfg 1) 0 0 false 0;      (* OFF *)
       demo_in (demo_cfg 1) 0 0 false 0;      (* LATCH0 *)
       demo_in (demo_cfg 8) 0 0 false 0;      (* LATCH1 *)
       demo_in (demo_cfg 8) 0 0 true 0;       (* READ *)
       demo_in (demo_cfg 8) 0 0 false 0;      (* WAIT *)
       demo_in (demo_cfg 8) 0 0 false 0;      (* WAIT2 *)
       demo_in (demo_cfg 8) 0 0 false 0].     (* WAIT3 *)

(** The engine enabled and waiting for a point, over an all-zero memory. *)
Definition demo_idle : Regs :=
  run demo_fb reset_regs [demo_in (demo_cfg 1) 0 0 false 0].

Definition demo_mem : Memory := fun _ => 0.

(** State READ for the point (0, 0), and the input vector that acknowledges
    the read with the word [0x0000003A]. *)
Definition demo_read_state : Regs :=
  run demo_fb reset_regs
      [demo_in (demo_cfg 1) 0 0 false 0;
       demo_in (demo_cfg 1) 0 0 false 0;
       demo_in (demo_cfg 1) 0 0 false 0].

Definition demo_read_ack : Inputs := demo_in (demo_cfg 1) 0 0 true 0x3A.

(** From reset to state LATCH1 holding the point (-100, 0). *)
Definition demo_left_state : Regs :=
  run demo_fb reset_regs
      [demo_in (demo_cfg 1) (-100) 0 false 0;
       demo_in (demo_cfg 1) (-100) 0 false 0].

(** ** What every request satisfies

    The registers driven onto [bus.sel] and [bus.adr] between the bounds
    check and the end of the write: full-word select, and the word address
    of the held sample under some rotate flag for which it is in bounds. *)

Definition request_inv (fb : DMAFramebuffer) (r : Regs) : Prop :=
  match fsm r with
  | READ | WAIT | WAIT2 | WAIT3 | WRITE =>
      bus_sel r = 0xf /\
      exists rot, in_bounds fb rot r = true /\ bus_adr r = word_address fb rot r
  | _ => True
  end.

(** The least number of clock edges after which a state can be followed by
    LATCH0 again while the framebuffer stays enabled, counted from READ on. *)
Definition cycles_to_ready (st : FsmState) : nat :=
  match st with
  | READ => 5 | WAIT => 4 | WAIT2 => 3 | WAIT3 => 2 | WRITE => 1
  | _ => 0
  end%nat.

(** ** SynthPeripheral: the matrix coefficient update logic

    The registers and the two [m.If] blocks of [SynthPeripheral.elaborate]
    that commit a coefficient written over CSR to the stream
    [synth.diffuser.matrix.c]. *)

(** What the logic samples in one cycle: the write strobe and the fields of
    the [Matrix] register, and [matrix.c.ready]. *)
Record MatrixIn : Set := mkMatrixIn {
  w_stb   : bool;   (* self._matrix.element.w_stb *)
  w_o_x   : Z;      (* self._matrix.f.o_x.w_data, unsigned(4) *)
  w_i_y   : Z;      (* self._matrix.f.i_y.w_data, unsigned(4) *)
  w_value : Z;      (* self._matrix.f.value.w_data, signed(24) *)
  c_ready : bool    (* matrix.c.ready *)
}.

Record MatrixRegs : Set := mkMatrixRegs {
  matrix_busy : bool;
  c_valid     : bool;   (* matrix.c.valid *)
  c_o_x       : Z;      (* matrix.c.payload.o_x *)
  c_i_y       : Z;      (* matrix.c.payload.i_y *)
  c_v         : Z       (* matrix.c.payload.v.as_value() *)
}.

Definition matrix_reset : MatrixRegs := mkMatrixRegs false false 0 0 0.

Section Matrix.

(** The shapes of the three payload fields are declared with the mixing
    matrix, outside these sources; the conversions done by the assignments
    are parameters. *)
Variables shape_o_x shape_i_y shape_v : Z -> Z.

(** Both [m.If] blocks test the registers of the current cycle; where both
    assign a register the later block wins. *)
Definition matrix_step (s : MatrixRegs) (i : MatrixIn) : MatrixRegs :=
  let s1 :=
    if w_stb i && negb (matrix_busy s)
    then mkMatrixRegs true true
           (shape_o_x (w_o_x i)) (shape_i_y (w_i_y i)) (shape_v (w_value i))
    else s in
  if matrix_busy s && c_ready i
  then mkMatrixRegs false false (c_o_x s1) (c_i_y s1) (c_v s1)
  else s1.

Definition matrix_run (s : MatrixRegs) (ins : list MatrixIn) : MatrixRegs :=
  fold_left matrix_step ins s.

(** [MatrixBusy.busy.r_data] *)
Definition matrix_busy_r_data (s : MatrixRegs) : Z :=
  if matrix_busy s then 1 else 0.

(** The coefficient on the stream, as (o_x, i_y, v). *)
Definition matrix_payload (s : MatrixRegs) : Z * Z * Z :=
  (c_o_x s, c_i_y s, c_v s).

(** The coefficients committed and those handed over along a run, in order:
    a write is committed in a cycle with the strobe while not busy, a
    coefficient is handed over in a cycle with [c.valid] and [c.ready]. *)
Fixpoint matrix_commits (s : MatrixRegs) (ins : list MatrixIn) : list (Z * Z * Z) :=
  match ins with
  | [] => []
  | i :: rest =>
      (if w_stb i && negb (matrix_busy s)
       then [(shape_o_x (w_o_x i), shape_i_y (w_i_y i), shape_v (w_value i))]
       else [])
      ++ matrix_commits (matrix_step s i) rest
  end.

Fixpoint matrix_transfers (s : MatrixRegs) (ins : list MatrixIn) : list (Z * Z * Z) :=
  match ins with
  | [] => []
  | i :: rest =>
      (if c_valid s && c_ready i then [matrix_payload s] else [])
      ++ matrix_transfers (matrix_step s i) rest
  end.

End Matrix.

(** ** More inputs for worked examples *)

(** Framebuffer enabled, [enable] low. *)
Definition demo_unkicked : Inputs :=
  demo_in (mkConfig 5 1 0 0 0 0 false false) 0 0 true 0.

(** Framebuffer disabled, everything else asserted. *)
Definition demo_disabled : Inputs :=
  mkInputs (demo_cfg 1) false true 0 0 0 0 true 0.

(** No acknowledge. *)
Definition demo_stall : Inputs := demo_in (demo_cfg 1) 0 0 false 0.

(** A coefficient waiting to be taken, and a CSR write strobed meanwhile. *)
Definition demo_matrix_pending : MatrixRegs := mkMatrixRegs true true 1 2 3.

Definition demo_matrix_write : MatrixIn := mkMatrixIn true 4 5 6 false.

(** Two input vectors agree on everything but [rotate_left]. *)
Definition same_but_rotate (i i' : Inputs) : Prop :=
  hue (cfg i) = hue (cfg i') /\
  intensity (cfg i) = intensity (cfg i') /\
  scale_x (cfg i) = scale_x (cfg i') /\ scale_y (cfg i) = scale_y (cfg i') /\
  x_offset (cfg i) = x_offset (cfg i') /\ y_offset (cfg i) = y_offset (cfg i') /\
  enable (cfg i) = enable (cfg i') /\
  fb_enable i = fb_enable i' /\ valid i = valid i' /\
  payload0 i = payload0 i' /\ payload1 i = payload1 i' /\
  payload2 i = payload2 i' /\ payload3 i = payload3 i' /\
  bus_ack i = bus_ack i' /\ bus_dat_r i = bus_dat_r i'.

(** The configuration of the examples with the rotate flag set. *)
Definition demo_cfg_rot (step_ : Z) : Config := mkConfig 5 step_ 0 0 0 0 true true.

(** From reset to state WRITE for the point (1, 2): captured and bounds
    checked with the rotate flag low; the flag is high from the read on, and
    the read returns the word [0x11223344]. *)
Definition demo_turned_state : Regs :=
  run demo_fb reset_regs
      [demo_in (demo_cfg 1) 1 2 false 0;                 (* OFF *)
       demo_in (demo_cfg 1) 1 2 false 0;                 (* LATCH0 *)
       demo_in (demo_cfg 1) 1 2 false 0;                 (* LATCH1 *)
       demo_in (demo_cfg_rot 1) 1 2 true 0x11223344;     (* READ *)
       demo_in (demo_cfg_rot 1) 1 2 false 0;             (* WAIT *)
       demo_in (demo_cfg_rot 1) 1 2 false 0;             (* WAIT2 *)
       demo_in (demo_cfg_rot 1) 1 2 false 0].            (* WAIT3 *)

(** A memory whose word 264 holds one pixel at full intensity, [0xF0]. *)
Definition demo_mem_lit : Memory := fun a => if a =? 264 then 0xF0 else 0.

(** The cycles of one draw of the point (1, 0) in which the rotate flag is
    low up to the last wait state and high in the write cycle. *)
Definition demo_toggled_draw : list Env :=
  [env_draw (demo_cfg 1) 1 0 0 0 false;       (* LATCH0 *)
   env_draw (demo_cfg 1) 1 0 0 0 false;       (* LATCH1 *)
   env_draw (demo_cfg 1) 1 0 0 0 true;        (* READ *)
   env_draw (demo_cfg 1) 1 0 0 0 false;       (* WAIT *)
   env_draw (demo_cfg 1) 1 0 0 0 false;       (* WAIT2 *)
   env_draw (demo_cfg 1) 1 0 0 0 false;       (* WAIT3 *)
   env_draw (demo_cfg_rot 1) 1 0 0 0 true].   (* WRITE *)

(** * Properties *)

(** ** Shapes and slices *)

Lemma unsigned_range w v : 0 <= w -> 0 <= unsigned w v < 2 ^ w.
Proof.
  intros; unfold unsigned; apply Z.mod_pos_bound; apply Z.pow_pos_nonneg; lia.
Qed.

Lemma unsigned_small w v : 0 <= v < 2 ^ w -> unsigned w v = v.
Proof. intros; unfold unsigned; apply Z.mod_small; lia. Qed.

Lemma pow2_double w : 0 < w -> 2 ^ w = 2 * 2 ^ (w - 1).
Proof.
  intros; replace w with (Z.succ (w - 1)) at 1 by lia.
  apply Z.pow_succ_r; lia.
Qed.

Lemma signed_range w v : 0 < w -> - 2 ^ (w - 1) <= signed w v < 2 ^ (w - 1).
Proof.
  intros Hw; unfold signed.
  pose proof (pow2_double w Hw).
  assert (0 < 2 ^ (w - 1)) by (apply Z.pow_pos_nonneg; lia).
  pose proof (Z.mod_pos_bound (v + 2 ^ (w - 1)) (2 ^ w)); lia.
Qed.

Lemma bits_range lo hi v : 0 <= hi - lo -> 0 <= bits lo hi v < 2 ^ (hi - lo).
Proof.
  intros; unfold bits. rewrite Z.land_ones by lia.
  apply Z.mod_pos_bound, Z.pow_pos_nonneg; lia.
Qed.

Lemma bits_low_mod n v : 0 <= n -> bits 0 n v = v mod 2 ^ n.
Proof.
  intros; unfold bits. rewrite Z.shiftr_0_r, Z.sub_0_r. apply Z.land_ones; lia.
Qed.

Lemma testbit_small b n i : 0 <= b < 2 ^ n -> n <= i -> Z.testbit b i = false.
Proof.
  intros Hb Hi. destruct (Z.eq_dec b 0) as [->|]; [apply Z.testbit_0_l|].
  apply Z.bits_above_log2; [lia|].
  assert (Z.log2 b < n); [|lia]. apply Z.log2_lt_pow2; lia.
Qed.

Lemma nibble_as_land a : 0 <= a < 16 -> a = Z.land a (Z.ones 4).
Proof. intros; rewrite Z.land_ones by lia; symmetry; apply Z.mod_small; lia. Qed.

(** ** Packed nibbles and bytes *)

(** Bitwise equality, with bits at negative positions cleared. *)
Ltac bitwise :=
  Z.bitblast; subst;
  repeat rewrite (Z.testbit_neg_r _ (_ - _)) by lia;
  rewrite ?andb_true_r, ?orb_false_r, ?andb_false_r; try reflexivity.

Lemma Cat_low a b : 0 <= a < 16 -> 0 <= b < 16 -> bits 0 4 (Cat 4 a b) = a.
Proof.
  intros Ha Hb. rewrite (nibble_as_land a Ha) at 2.
  unfold bits, Cat. rewrite Z.shiftr_0_r. change (4 - 0) with 4.
  bitwise.
Qed.

Lemma Cat_high a b : 0 <= a < 16 -> 0 <= b < 16 -> bits 4 8 (Cat 4 a b) = b.
Proof.
  intros Ha Hb. rewrite (nibble_as_land b Hb) at 2.
  rewrite (nibble_as_land a Ha).
  unfold bits, Cat. change (8 - 4) with 4.
  bitwise.
Qed.

Lemma Cat_range a b : 0 <= a < 16 -> 0 <= b < 16 -> 0 <= Cat 4 a b < 256.
Proof.
  intros Ha Hb. unfold Cat.
  rewrite Z.or_to_plus.
  - rewrite Z.shiftl_mul_pow2 by lia. change (2 ^ 4) with 16. lia.
  - rewrite (nibble_as_land a Ha). bitwise.
Qed.

Lemma testbit_insert_byte sh w b i :
  0 <= sh -> 0 <= b < 256 -> 0 <= i ->
  Z.testbit (insert_byte sh w b) i =
  (i <? 32) && (if (sh <=? i) && (i <? sh + 8)
                then Z.testbit b (i - sh) else Z.testbit w i).
Proof.
  intros Hsh Hb Hi. unfold insert_byte, unsigned.
  change 0xFF with (Z.ones 8).
  rewrite Z.testbit_mod_pow2 by lia.
  destruct (i <? 32); [|reflexivity]. cbn [andb].
  rewrite Z.lor_spec, Z.land_spec, Z.lnot_spec by lia.
  destruct (Z.leb_spec sh i).
  - rewrite !Z.shiftl_spec by lia. rewrite Z.testbit_ones_nonneg by lia.
    destruct (Z.ltb_spec (i - sh) 8), (Z.ltb_spec i (sh + 8)); try lia; cbn.
    + rewrite andb_false_r; reflexivity.
    + rewrite (testbit_small b 8) by (change (2 ^ 8) with 256; lia).
      rewrite andb_true_r, orb_false_r; reflexivity.
  - rewrite !Z.shiftl_spec_low by lia. cbn.
    rewrite andb_true_r, orb_false_r. reflexivity.
Qed.

Lemma pixel_byte_insert_byte sh w b :
  0 <= sh -> sh + 8 <= 32 -> 0 <= b < 256 ->
  pixel_byte sh (insert_byte sh w b) = b.
Proof.
  intros Hsh H32 Hb. unfold pixel_byte. change 0xff with (Z.ones 8).
  apply Z.bits_inj'; intros i Hi.
  rewrite Z.land_spec, Z.shiftr_spec, testbit_insert_byte by lia.
  rewrite Z.testbit_ones_nonneg by lia.
  destruct (Z.ltb_spec i 8).
  - replace (i + sh <? 32) with true by (symmetry; apply Z.ltb_lt; lia).
    replace (sh <=? i + sh) with true by (symmetry; apply Z.leb_le; lia).
    replace (i + sh <? sh + 8) with true by (symmetry; apply Z.ltb_lt; lia).
    cbn. rewrite andb_true_r. f_equal; lia.
  - rewrite andb_false_r. symmetry.
    apply (testbit_small b 8); [change (2 ^ 8) with 256|]; lia.
Qed.

Lemma pixel_byte_range sh w : 0 <= pixel_byte sh w < 256.
Proof.
  unfold pixel_byte. change 0xff with (Z.ones 8).
  rewrite Z.land_ones by lia. apply Z.mod_pos_bound. reflexivity.
Qed.

(** A byte of the low 32 bits does not see the truncation to 32 bits. *)
Lemma pixel_byte_unsigned32 sh w :
  0 <= sh -> sh + 8 <= 32 -> pixel_byte sh (unsigned 32 w) = pixel_byte sh w.
Proof.
  intros. unfold pixel_byte, unsigned. change 0xff with (Z.ones 8).
  Z.bitblast.
Qed.

(** ** Register ranges are an invariant *)

Lemma reset_wf : wf_regs reset_regs.
Proof. unfold wf_regs; cbn; lia. Qed.

Lemma step_wf fb r i : wf_regs r -> wf_regs (step fb r i).
Proof.
  intros Hr. pose proof Hr as (Hx & Hy & Hc & Hi & Hp & Hs).
  pose proof (signed_range 16) as S16. change (2 ^ (16 - 1)) with 32768 in S16.
  unfold step.
  destruct (negb (fb_enable i)); [apply reset_wf|].
  destruct (fsm r);
    repeat match goal with |- context [if ?b then _ else _] => destruct b end;
    try exact Hr;
    unfold wf_regs; cbn;
    repeat split;
    try lia;
    try (apply S16; lia);
    try (apply (unsigned_range 4); lia);
    try (apply unsigned_range; lia).
Qed.

Lemma reachable_wf fb r : reachable fb r -> wf_regs r.
Proof.
  induction 1; [apply reset_wf | now apply step_wf].
Qed.

Lemma run_app fb r l1 l2 : run fb r (l1 ++ l2) = run fb (run fb r l1) l2.
Proof. apply fold_left_app. Qed.

Lemma run_reachable fb r ins : reachable fb r -> reachable fb (run fb r ins).
Proof.
  revert r; induction ins as [|i ins IH]; intros r Hr; cbn; [exact Hr|].
  apply IH; now constructor.
Qed.

(** ** The sub-word shift *)

Lemma subpix_shift_mod rot r :
  subpix_shift rot r =
  (if rot then (- sample_y r) mod 4 else sample_x r mod 4) * 8.
Proof.
  unfold subpix_shift.
  destruct rot; rewrite bits_low_mod by lia; change (2 ^ 2) with 4;
    apply unsigned_small; change (2 ^ 6) with 64;
    match goal with |- context [?v mod 4] =>
      pose proof (Z.mod_pos_bound v 4) end; lia.
Qed.

Lemma subpix_shift_bounds rot r :
  0 <= subpix_shift rot r /\ subpix_shift rot r + 8 <= 32.
Proof.
  rewrite subpix_shift_mod.
  destruct rot;
    match goal with |- context [?v mod 4] =>
      pose proof (Z.mod_pos_bound v 4) end; lia.
Qed.

Lemma subpix_shift_ext rot r r' :
  sample_x r = sample_x r' -> sample_y r = sample_y r' ->
  subpix_shift rot r = subpix_shift rot r'.
Proof. unfold subpix_shift; intros -> ->; reflexivity. Qed.

(** ** The write payload *)

Lemma white_eq : white = 15.
Proof. reflexivity. Qed.

Lemma new_color_range c r : 0 <= new_color c r < 16.
Proof. apply (unsigned_range 4); lia. Qed.

Lemma intensity_sum_range r :
  0 <= sample_intensity r < 16 -> 0 <= intensity_sum r < 31.
Proof.
  intros. unfold intensity_sum.
  pose proof (bits_range 4 8 (px_sum r)). change (2 ^ (8 - 4)) with 16 in *. lia.
Qed.

Lemma new_byte_range c r :
  0 <= sample_intensity r < 16 -> 0 <= new_byte c r < 256.
Proof.
  intros H. pose proof (intensity_sum_range r H).
  apply Cat_range; [apply new_color_range | lia].
Qed.

(** Both branches of the WRITE state drive the same masked update; they
    differ only in how the intensity nibble is obtained. *)
Lemma write_word_insert c r :
  write_word c r =
  insert_byte (subpix_shift (rotate_left c) r) (px_read r) (new_byte c r).
Proof.
  unfold write_word, insert_byte, new_byte.
  destruct (Z.leb_spec 0xF (intensity_sum r)).
  - rewrite white_eq, Z.min_l by lia. reflexivity.
  - rewrite Z.min_r by lia. reflexivity.
Qed.

Lemma written_byte c r :
  0 <= sample_intensity r < 16 ->
  pixel_byte (subpix_shift (rotate_left c) r) (write_word c r) = new_byte c r.
Proof.
  intros H. rewrite write_word_insert.
  pose proof (subpix_shift_bounds (rotate_left c) r).
  apply pixel_byte_insert_byte; try lia. now apply new_byte_range.
Qed.

Lemma written_intensity c r :
  0 <= sample_intensity r < 16 ->
  bits 4 8 (pixel_byte (subpix_shift (rotate_left c) r) (write_word c r)) =
  Z.min 15 (intensity_sum r).
Proof.
  intros H. rewrite written_byte by assumption.
  pose proof (intensity_sum_range r H).
  apply Cat_high; [apply new_color_range | lia].
Qed.

Lemma written_color c r :
  0 <= sample_intensity r < 16 ->
  bits 0 4 (pixel_byte (subpix_shift (rotate_left c) r) (write_word c r)) =
  new_color c r.
Proof.
  intros H. rewrite written_byte by assumption.
  pose proof (intensity_sum_range r H).
  apply Cat_low; [apply new_color_range | lia].
Qed.

(** ** The address mapper sees only the latched coordinates *)

Lemma x_offs_ext fb rot r r' :
  sample_x r = sample_x r' -> sample_y r = sample_y r' ->
  x_offs fb rot r = x_offs fb rot r'.
Proof. unfold x_offs; intros -> ->; reflexivity. Qed.

Lemma y_offs_ext fb rot r r' :
  sample_x r = sample_x r' -> sample_y r = sample_y r' ->
  y_offs fb rot r = y_offs fb rot r'.
Proof. unfold y_offs; intros -> ->; reflexivity. Qed.

Lemma in_bounds_ext fb rot r r' :
  sample_x r = sample_x r' -> sample_y r = sample_y r' ->
  in_bounds fb rot r = in_bounds fb rot r'.
Proof.
  intros Hx Hy. unfold in_bounds.
  now rewrite (x_offs_ext fb rot r r'), (y_offs_ext fb rot r r').
Qed.

Lemma word_address_ext fb rot r r' :
  sample_x r = sample_x r' -> sample_y r = sample_y r' ->
  word_address fb rot r = word_address fb rot r'.
Proof.
  intros Hx Hy. unfold word_address, latch_address, pixel_offs; cbn.
  now rewrite (x_offs_ext fb rot r r'), (y_offs_ext fb rot r r').
Qed.

(** ** One cycle of the engine attached to the memory *)

Section ClosedLoop.

Variable fb : DMAFramebuffer.
Variables (c : Config) (p0 p1 p2 p3 : Z).

Local Abbreviation env := (env_draw c p0 p1 p2 p3).

Lemma sys_latch0 r m a :
  fsm r = LATCH0 ->
  sys_step fb (r, m) (env a) = (latched c p0 p1 p2 p3 r, m).
Proof.
  intros H. unfold sys_step, sys_inputs, step, outputs; cbn. rewrite H; cbn.
  reflexivity.
Qed.

Lemma sys_latch1_in r m a :
  fsm r = LATCH1 -> in_bounds fb (rotate_left c) r = true ->
  sys_step fb (r, m) (env a) = (latch_address fb (rotate_left c) r, m).
Proof.
  intros H Hb. unfold sys_step, sys_inputs, step, outputs; cbn. rewrite H; cbn.
  rewrite Hb. reflexivity.
Qed.

Lemma sys_latch1_out r m a :
  fsm r = LATCH1 -> in_bounds fb (rotate_left c) r = false ->
  sys_step fb (r, m) (env a) = (set_fsm LATCH0 r, m).
Proof.
  intros H Hb. unfold sys_step, sys_inputs, step, outputs; cbn. rewrite H; cbn.
  rewrite Hb. reflexivity.
Qed.

Lemma sys_read_stall r m :
  fsm r = READ -> sys_step fb (r, m) (env false) = (r, m).
Proof.
  intros H. unfold sys_step, sys_inputs, step, outputs; cbn. rewrite H; cbn.
  reflexivity.
Qed.

Lemma sys_read_ack r m :
  fsm r = READ ->
  sys_step fb (r, m) (env true) =
  (latch_read (mkInputs c true true p0 p1 p2 p3 true (m (bus_adr r))) r, m).
Proof.
  intros H. unfold sys_step, sys_inputs, step, outputs; cbn. rewrite H; cbn.
  reflexivity.
Qed.

Lemma sys_wait r m a :
  fsm r = WAIT -> sys_step fb (r, m) (env a) = (set_fsm WAIT2 r, m).
Proof.
  intros H. unfold sys_step, sys_inputs, step, outputs; cbn. rewrite H; cbn.
  reflexivity.
Qed.

Lemma sys_wait2 r m a :
  fsm r = WAIT2 -> sys_step fb (r, m) (env a) = (set_fsm WAIT3 r, m).
Proof.
  intros H. unfold sys_step, sys_inputs, step, outputs; cbn. rewrite H; cbn.
  reflexivity.
Qed.

Lemma sys_wait3 r m a :
  fsm r = WAIT3 -> sys_step fb (r, m) (env a) = (set_fsm WRITE r, m).
Proof.
  intros H. unfold sys_step, sys_inputs, step, outputs; cbn. rewrite H; cbn.
  reflexivity.
Qed.

Lemma sys_write_stall r m :
  fsm r = WRITE -> sys_step fb (r, m) (env false) = (r, m).
Proof.
  intros H. unfold sys_step, sys_inputs, step, outputs; cbn. rewrite H; cbn.
  reflexivity.
Qed.

Lemma sys_write_ack r m :
  fsm r = WRITE ->
  sys_step fb (r, m) (env true) =
  (set_fsm LATCH0 r, mem_write m (bus_adr r) (bus_sel r) (write_word c r)).
Proof.
  intros H. unfold sys_step, sys_inputs, step, outputs; cbn. rewrite H; cbn.
  reflexivity.
Qed.

Lemma sys_stalls r m n :
  fsm r = READ \/ fsm r = WRITE ->
  fold_left (sys_step fb) (repeat (env false) n) (r, m) = (r, m).
Proof.
  intros H. induction n as [|n IH]; cbn; [reflexivity|].
  destruct H as [H|H];
    [rewrite (sys_read_stall r m H) | rewrite (sys_write_stall r m H)];
    exact IH.
Qed.

Lemma draw_once r m d :
  fsm r = LATCH0 ->
  in_bounds fb (rotate_left c) (latched c p0 p1 p2 p3 r) = true ->
  sys_run fb (r, m) (draw_schedule c p0 p1 p2 p3 d) =
  (set_fsm LATCH0 (write_state fb c p0 p1 p2 p3 r m),
   mem_write m (bus_adr (write_state fb c p0 p1 p2 p3 r m))
             (bus_sel (write_state fb c p0 p1 p2 p3 r m))
             (write_word c (write_state fb c p0 p1 p2 p3 r m))).
Proof.
  intros H0 Hb. unfold draw_schedule, sys_run, write_state.
  set (r1 := latch_address fb (rotate_left c) (latched c p0 p1 p2 p3 r)).
  set (r2 := latch_read (mkInputs c true true p0 p1 p2 p3 true (m (bus_adr r1))) r1).
  cbn [app fold_left].
  rewrite (sys_latch0 r m false H0).
  rewrite sys_latch1_in by first [reflexivity | exact Hb].
  fold r1. rewrite !fold_left_app.
  rewrite (sys_stalls r1 m (fst d)) by (left; reflexivity).
  cbn [fold_left].
  rewrite (sys_read_ack r1 m) by reflexivity. fold r2.
  rewrite (sys_wait r2 m) by reflexivity.
  rewrite (sys_wait2 (set_fsm WAIT2 r2) m) by reflexivity.
  rewrite (sys_wait3 (set_fsm WAIT3 (set_fsm WAIT2 r2)) m) by reflexivity.
  rewrite fold_left_app.
  rewrite (sys_stalls (set_fsm WRITE (set_fsm WAIT3 (set_fsm WAIT2 r2))) m (snd d))
    by (right; reflexivity).
  cbn [fold_left].
  rewrite sys_write_ack by reflexivity.
  reflexivity.
Qed.

End ClosedLoop.

(** ** What one draw leaves in memory *)

Lemma sel_mask_full : sel_mask (unsigned 4 0xf) = Z.ones 32.
Proof. reflexivity. Qed.

Lemma pixel_byte_mem_write m adr dat sh :
  0 <= sh -> sh + 8 <= 32 ->
  pixel_byte sh (mem_write m adr (unsigned 4 0xf) dat adr) = pixel_byte sh dat.
Proof.
  intros. unfold mem_write. rewrite Z.eqb_refl, sel_mask_full.
  unfold pixel_byte. change 0xff with (Z.ones 8). bitwise.
Qed.

Lemma mem_write_other m adr sel dat a :
  a <> adr -> mem_write m adr sel dat a = m a.
Proof.
  intros H. unfold mem_write. destruct (Z.eqb_spec a adr); [contradiction|reflexivity].
Qed.

Section DrawEffect.

Variable fb : DMAFramebuffer.
Variables (c : Config) (p0 p1 p2 p3 : Z).

(** The captured sample does not depend on the registers it overwrites. *)
Local Abbreviation pt := (latched c p0 p1 p2 p3 reset_regs).
Local Abbreviation sh := (subpix_shift (rotate_left c) pt).
Local Abbreviation adr := (word_address fb (rotate_left c) pt).

Lemma write_state_shift r m :
  subpix_shift (rotate_left c) (write_state fb c p0 p1 p2 p3 r m) = sh.
Proof. apply subpix_shift_ext; reflexivity. Qed.

Lemma write_state_adr r m :
  bus_adr (write_state fb c p0 p1 p2 p3 r m) = adr.
Proof.
  change (bus_adr (write_state fb c p0 p1 p2 p3 r m))
    with (word_address fb (rotate_left c) (latched c p0 p1 p2 p3 r)).
  apply word_address_ext; reflexivity.
Qed.

Lemma write_state_sum r m :
  intensity_sum (write_state fb c p0 p1 p2 p3 r m) =
  bits 4 8 (pixel_byte sh (m adr)) + unsigned 4 (intensity c).
Proof.
  pose proof (write_state_adr r m) as Ha.
  unfold intensity_sum. f_equal. f_equal.
  unfold write_state in *. cbn in Ha |- *. rewrite Ha.
  fold (pixel_byte sh (m adr)).
  apply unsigned_small. change (2 ^ 16) with 65536.
  match goal with |- 0 <= pixel_byte ?s ?w < _ =>
    pose proof (pixel_byte_range s w) end.
  lia.
Qed.

Lemma draw_once_intensity r m d :
  fsm r = LATCH0 ->
  in_bounds fb (rotate_left c) pt = true ->
  let s' := sys_run fb (r, m) (draw_schedule c p0 p1 p2 p3 d) in
  fsm (fst s') = LATCH0 /\
  bits 4 8 (pixel_byte sh (snd s' adr)) =
  Z.min 15 (bits 4 8 (pixel_byte sh (m adr)) + unsigned 4 (intensity c)).
Proof.
  intros H0 Hb s'. subst s'.
  rewrite draw_once;
    [| exact H0
     | rewrite <- Hb; apply in_bounds_ext; reflexivity].
  cbn [fst snd]. split; [reflexivity|].
  rewrite write_state_adr.
  change (bus_sel (write_state fb c p0 p1 p2 p3 r m)) with (unsigned 4 0xf).
  pose proof (subpix_shift_bounds (rotate_left c) pt) as [? ?].
  rewrite pixel_byte_mem_write by lia.
  rewrite <- (write_state_shift r m) at 1.
  rewrite written_intensity by (apply (unsigned_range 4); lia).
  now rewrite write_state_sum.
Qed.

Lemma draws_accumulate (ds : list (nat * nat)) : forall r m,
  fsm r = LATCH0 ->
  in_bounds fb (rotate_left c) pt = true ->
  let s' := sys_run fb (r, m) (flat_map (draw_schedule c p0 p1 p2 p3) ds) in
  fsm (fst s') = LATCH0 /\
  bits 4 8 (pixel_byte sh (snd s' adr)) =
  Z.min 15 (bits 4 8 (pixel_byte sh (m adr))
            + Z.of_nat (length ds) * unsigned 4 (intensity c)).
Proof.
  induction ds as [|d ds IH]; intros r m H0 Hb.
  - cbn zeta. unfold sys_run. cbn [flat_map fold_left fst snd length].
    split; [exact H0|].
    assert (0 <= bits 4 8 (pixel_byte sh (m adr)) < 16)
      by (apply (bits_range 4 8); lia).
    change (Z.of_nat 0) with 0. lia.
  - cbn zeta. cbn [flat_map]. unfold sys_run. rewrite fold_left_app.
    fold (sys_run fb (r, m) (draw_schedule c p0 p1 p2 p3 d)).
    destruct (draw_once_intensity r m d H0 Hb) as [H1 E1].
    destruct (sys_run fb (r, m) (draw_schedule c p0 p1 p2 p3 d)) as [r1 m1].
    cbn [fst snd] in H1, E1.
    destruct (IH r1 m1 H1 Hb) as [H2 E2].
    unfold sys_run in H2, E2. split; [exact H2|].
    rewrite E2, E1.
    assert (0 <= unsigned 4 (intensity c)) by (apply (unsigned_range 4); lia).
    cbn [length]. rewrite Nat2Z.inj_succ.
    pose proof (Nat2Z.is_nonneg (length ds)). nia.
Qed.

End DrawEffect.

Lemma testbit_pixel_byte sh w k :
  0 <= sh -> 0 <= k ->
  Z.testbit (pixel_byte sh w) k = (k <? 8) && Z.testbit w (k + sh).
Proof.
  intros. unfold pixel_byte. change 0xff with (Z.ones 8).
  rewrite Z.land_spec, Z.shiftr_spec, Z.testbit_ones_nonneg by lia.
  apply andb_comm.
Qed.

Lemma pixel_byte_insert_other sh sh' w b :
  0 <= sh -> 0 <= sh' -> sh' + 8 <= 32 ->
  sh' + 8 <= sh \/ sh + 8 <= sh' -> 0 <= b < 256 ->
  pixel_byte sh' (insert_byte sh w b) = pixel_byte sh' w.
Proof.
  intros Hs Hs' H32 Hd Hb. apply Z.bits_inj'; intros k Hk.
  rewrite !testbit_pixel_byte by lia.
  destruct (Z.ltb_spec k 8); [cbn [andb]|reflexivity].
  rewrite testbit_insert_byte by lia.
  replace (k + sh' <? 32) with true by (symmetry; apply Z.ltb_lt; lia).
  destruct (Z.leb_spec sh (k + sh')), (Z.ltb_spec (k + sh') (sh + 8));
    cbn; try reflexivity; lia.
Qed.

Lemma subpix_shift_aligned rot r : In (subpix_shift rot r) [0; 8; 16; 24].
Proof.
  rewrite subpix_shift_mod. cbn [In].
  destruct rot;
    match goal with |- context [?v mod 4] =>
      pose proof (Z.mod_pos_bound v 4) end; lia.
Qed.

Lemma outputs_write c r :
  fsm r = WRITE -> outputs c r = mkOutputs false true true true (write_word c r).
Proof. intros H; unfold outputs; rewrite H; reflexivity. Qed.

Section DrawFrame.

Variable fb : DMAFramebuffer.
Variables (c : Config) (p0 p1 p2 p3 : Z).

Local Abbreviation pt := (latched c p0 p1 p2 p3 reset_regs).
Local Abbreviation sh := (subpix_shift (rotate_left c) pt).
Local Abbreviation adr := (word_address fb (rotate_left c) pt).

(** After one draw the addressed pixel holds the packed byte; the other
    pixels of the word and all other words are as they were. *)
Lemma draw_once_frame r m d :
  fsm r = LATCH0 ->
  in_bounds fb (rotate_left c) pt = true ->
  let m' := snd (sys_run fb (r, m) (draw_schedule c p0 p1 p2 p3 d)) in
  pixel_byte sh (m' adr) = new_byte c (write_state fb c p0 p1 p2 p3 r m) /\
  (forall sh', In sh' [0; 8; 16; 24] -> sh' <> sh ->
     pixel_byte sh' (m' adr) = pixel_byte sh' (m adr)) /\
  (forall a, a <> adr -> m' a = m a).
Proof.
  intros H0 Hb m'. subst m'.
  rewrite draw_once;
    [| exact H0
     | rewrite <- Hb; apply in_bounds_ext; reflexivity].
  cbn [snd]. rewrite write_state_adr.
  change (bus_sel (write_state fb c p0 p1 p2 p3 r m)) with (unsigned 4 0xf).
  pose proof (subpix_shift_bounds (rotate_left c) pt) as [? ?].
  pose proof (subpix_shift_aligned (rotate_left c) pt) as Hal.
  assert (Hi : 0 <= sample_intensity (write_state fb c p0 p1 p2 p3 r m) < 16)
    by (apply (unsigned_range 4); lia).
  repeat split.
  - rewrite pixel_byte_mem_write by lia.
    rewrite <- (write_state_shift fb c p0 p1 p2 p3 r m) at 1.
    now apply written_byte.
  - intros sh' Hin Hne.
    assert (0 <= sh' /\ sh' + 8 <= 32 /\ (sh' + 8 <= sh \/ sh + 8 <= sh')) as (? & ? & ?).
    { cbn [In] in Hin, Hal. lia. }
    rewrite pixel_byte_mem_write by lia.
    rewrite write_word_insert, write_state_shift.
    rewrite pixel_byte_insert_other by (try lia; now apply new_byte_range).
    change (px_read (write_state fb c p0 p1 p2 p3 r m))
      with (unsigned 32 (m (bus_adr (write_state fb c p0 p1 p2 p3 r m)))).
    rewrite write_state_adr. apply pixel_byte_unsigned32; lia.
  - intros a Ha. now apply mem_write_other.
Qed.

End DrawFrame.

(** ** The drawing logic: intensity, color and the untouched pixels *)

(** C1.  The intensity nibble of the byte packed in state WRITE is the
    saturating sum [min 15 (existing + step)] of the intensity read for the
    pixel and the intensity step latched with the point; it never falls
    below the existing intensity (no wrap).  With the engine attached to a
    memory, drawing one in-bounds point [N] times in a row under a fixed
    configuration with step [s], whatever the memory latencies, leaves
    [min 15 (e + N * s)] in the pixel that held intensity [e]; from [e = 0]
    this is [min 15 (N * s)]. *)
Theorem intensity_saturating_add :
  forall fb : DMAFramebuffer,
  (forall c r, fsm r = WRITE -> wf_regs r ->
     let written :=
       bits 4 8 (pixel_byte (subpix_shift (rotate_left c) r)
                            (bus_dat_w (outputs c r))) in
     written = Z.min 15 (bits 4 8 (px_sum r) + sample_intensity r) /\
     bits 4 8 (px_sum r) <= written <= 15) /\
  (forall c p0 p1 p2 p3 (ds : list (nat * nat)) r m,
     fsm r = LATCH0 -> 0 <= intensity c < 16 ->
     let pt := latched c p0 p1 p2 p3 r in
     in_bounds fb (rotate_left c) pt = true ->
     let sh := subpix_shift (rotate_left c) pt in
     let adr := word_address fb (rotate_left c) pt in
     let s' := sys_run fb (r, m) (flat_map (draw_schedule c p0 p1 p2 p3) ds) in
     fsm (fst s') = LATCH0 /\
     bits 4 8 (pixel_byte sh (snd s' adr)) =
       Z.min 15 (bits 4 8 (pixel_byte sh (m adr)) + Z.of_nat (length ds) * intensity c) /\
     (bits 4 8 (pixel_byte sh (m adr)) = 0 ->
      bits 4 8 (pixel_byte sh (snd s' adr)) =
        Z.min 15 (Z.of_nat (length ds) * intensity c))).
Proof.
  intros fb. split.
  - intros c r Hw (_ & _ & _ & Hi & _ & _) written. subst written.
    rewrite (outputs_write c r Hw). cbn [bus_dat_w].
    rewrite written_intensity by exact Hi. unfold intensity_sum.
    assert (0 <= bits 4 8 (px_sum r) < 16) by (apply (bits_range 4 8); lia).
    lia.
  - intros c p0 p1 p2 p3 ds r m H0 Hs pt Hb sh adr s'.
    assert (Esh : sh = subpix_shift (rotate_left c) (latched c p0 p1 p2 p3 reset_regs))
      by (apply subpix_shift_ext; reflexivity).
    assert (Eadr : adr = word_address fb (rotate_left c) (latched c p0 p1 p2 p3 reset_regs))
      by (apply word_address_ext; reflexivity).
    assert (Hb' : in_bounds fb (rotate_left c) (latched c p0 p1 p2 p3 reset_regs) = true)
      by (rewrite <- Hb; apply in_bounds_ext; reflexivity).
    destruct (draws_accumulate fb c p0 p1 p2 p3 ds r m H0 Hb') as [H1 H2].
    fold s' in H1, H2. rewrite <- Esh, <- Eadr in H2.
    rewrite (unsigned_small 4 (intensity c)) in H2 by (change (2 ^ 4) with 16; lia).
    split; [exact H1|]. split; [exact H2|].
    intros E0. rewrite H2, E0. reflexivity.
Qed.

Lemma Cat_add a b : 0 <= a < 16 -> 0 <= b < 16 -> Cat 4 a b = a + 16 * b.
Proof.
  intros Ha Hb. unfold Cat. rewrite Z.or_to_plus.
  - rewrite Z.shiftl_mul_pow2 by lia. change (2 ^ 4) with 16. lia.
  - rewrite (nibble_as_land a Ha). bitwise.
Qed.

Lemma bits_pixel_byte sh w lo hi :
  0 <= sh -> 0 <= lo -> lo <= hi -> hi <= 8 ->
  bits lo hi (pixel_byte sh w) = bits (sh + lo) (sh + hi) w.
Proof.
  intros. unfold bits, pixel_byte. change 0xff with (Z.ones 8).
  replace (sh + hi - (sh + lo)) with (hi - lo) by lia.
  bitwise.
Qed.

(** *** Steps of the FSM along one transaction *)

Lemma step_read_ack fb r i :
  fsm r = READ -> bus_ack i = true -> fb_enable i = true ->
  step fb r i = latch_read i r.
Proof.
  intros H Ha He. unfold step, outputs. rewrite He, H, Ha. reflexivity.
Qed.

Lemma step_wait_states fb r i :
  fb_enable i = true ->
  (fsm r = WAIT -> step fb r i = set_fsm WAIT2 r) /\
  (fsm r = WAIT2 -> step fb r i = set_fsm WAIT3 r) /\
  (fsm r = WAIT3 -> step fb r i = set_fsm WRITE r).
Proof.
  intros He. unfold step. rewrite He.
  repeat split; intros ->; reflexivity.
Qed.

Lemma read_to_write fb r i0 i1 i2 i3 :
  fsm r = READ -> bus_ack i0 = true ->
  fb_enable i0 = true -> fb_enable i1 = true ->
  fb_enable i2 = true -> fb_enable i3 = true ->
  run fb r [i0] = latch_read i0 r /\
  run fb r [i0; i1] = set_fsm WAIT2 (latch_read i0 r) /\
  run fb r [i0; i1; i2] = set_fsm WAIT3 (latch_read i0 r) /\
  run fb r [i0; i1; i2; i3] = set_fsm WRITE (latch_read i0 r).
Proof.
  intros H Ha E0 E1 E2 E3. unfold run. cbn [fold_left].
  rewrite (step_read_ack fb r i0 H Ha E0).
  rewrite (proj1 (step_wait_states fb _ i1 E1)) by reflexivity.
  rewrite (proj1 (proj2 (step_wait_states fb _ i2 E2))) by reflexivity.
  rewrite (proj2 (proj2 (step_wait_states fb _ i3 E3))) by reflexivity.
  repeat split; reflexivity.
Qed.

(** C5.  The payload driven in state WRITE is the word read for the point
    ([px_read], captured from [dat_r] when the read was acknowledged, the
    address register being unchanged since) with the byte at the sub-word
    shift masked out and the newly packed byte OR-ed in at that shift: every
    bit outside that byte, hence each of the three other packed pixels,
    equals the bit that was read. *)
Theorem write_touches_one_byte :
  forall fb : DMAFramebuffer,
  (forall c r, fsm r = WRITE -> wf_regs r ->
     let sh := subpix_shift (rotate_left c) r in
     let w := bus_dat_w (outputs c r) in
     In sh [0; 8; 16; 24] /\
     w = unsigned 32
           (Z.lor (Z.land (px_read r) (Z.lnot (Z.shiftl 0xFF sh)))
                  (Z.shiftl (new_byte c r) sh)) /\
     pixel_byte sh w = new_byte c r /\
     (forall k, 0 <= k -> ~ (sh <= k < sh + 8) ->
        Z.testbit w k = Z.testbit (px_read r) k) /\
     (forall sh', In sh' [0; 8; 16; 24] -> sh' <> sh ->
        pixel_byte sh' w = pixel_byte sh' (px_read r))) /\
  (forall r i0 i1 i2 i3,
     fsm r = READ -> bus_ack i0 = true ->
     fb_enable i0 = true -> fb_enable i1 = true ->
     fb_enable i2 = true -> fb_enable i3 = true ->
     let rw := run fb r [i0; i1; i2; i3] in
     fsm rw = WRITE /\ px_read rw = unsigned 32 (bus_dat_r i0) /\
     bus_adr rw = bus_adr r).
Proof.
  intros fb. split.
  - intros c r Hw (_ & _ & _ & Hi & Hp & _) sh w. subst w.
    rewrite (outputs_write c r Hw). cbn [bus_dat_w].
    pose proof (subpix_shift_bounds (rotate_left c) r) as [Hlo Hhi].
    pose proof (subpix_shift_aligned (rotate_left c) r) as Hal.
    pose proof (new_byte_range c r Hi) as Hb.
    fold sh in Hlo, Hhi, Hal.
    split; [exact Hal|]. split; [apply write_word_insert|].
    split; [now apply written_byte|]. split.
    + intros k Hk Hout. rewrite write_word_insert. fold sh.
      rewrite testbit_insert_byte by lia.
      destruct (Z.ltb_spec k 32).
      * destruct (Z.leb_spec sh k), (Z.ltb_spec k (sh + 8)); cbn;
          try reflexivity; lia.
      * cbn. symmetry. apply (testbit_small _ 32); lia.
    + intros sh' Hin Hne. rewrite write_word_insert. fold sh.
      cbn [In] in Hin, Hal.
      apply pixel_byte_insert_other; lia.
  - intros r i0 i1 i2 i3 H Ha E0 E1 E2 E3 rw. subst rw.
    destruct (read_to_write fb r i0 i1 i2 i3 H Ha E0 E1 E2 E3) as (_ & _ & _ & ->).
    repeat split; reflexivity.
Qed.

(** C9.  The color nibble of the byte packed in state WRITE is the latched
    color-modulation lane shifted right arithmetically by 10, plus the
    current hue, truncated to 4 bits.  It does not depend on the word that
    was read nor on the intensity, saturated or not: two WRITE states that
    hold the same sample drive the same color.  After a complete draw the
    addressed pixel in memory carries that color, whatever it held before. *)
Theorem color_overwritten :
  forall fb : DMAFramebuffer,
  (forall c r, fsm r = WRITE -> wf_regs r ->
     let sh := subpix_shift (rotate_left c) r in
     bits 0 4 (pixel_byte sh (bus_dat_w (outputs c r))) =
       (Z.shiftr (sample_c r) 10 + hue c) mod 2 ^ 4 /\
     (forall r', fsm r' = WRITE -> wf_regs r' ->
        sample_x r' = sample_x r -> sample_y r' = sample_y r ->
        sample_c r' = sample_c r ->
        bits 0 4 (pixel_byte sh (bus_dat_w (outputs c r'))) =
        bits 0 4 (pixel_byte sh (bus_dat_w (outputs c r))))) /\
  (forall c p0 p1 p2 p3 d r m,
     fsm r = LATCH0 ->
     let pt := latched c p0 p1 p2 p3 r in
     in_bounds fb (rotate_left c) pt = true ->
     let sh := subpix_shift (rotate_left c) pt in
     let adr := word_address fb (rotate_left c) pt in
     let m' := snd (sys_run fb (r, m) (draw_schedule c p0 p1 p2 p3 d)) in
     bits 0 4 (pixel_byte sh (m' adr)) =
       (Z.shiftr (signed 16 p3) 10 + hue c) mod 2 ^ 4).
Proof.
  intros fb. split.
  - intros c r Hw Hwf sh.
    assert (Hcol : forall q, fsm q = WRITE -> wf_regs q ->
              bits 0 4 (pixel_byte (subpix_shift (rotate_left c) q)
                                   (bus_dat_w (outputs c q))) = new_color c q).
    { intros q Hq (_ & _ & _ & Hqi & _ & _).
      rewrite (outputs_write c q Hq). cbn [bus_dat_w]. now apply written_color. }
    split.
    + unfold sh. now rewrite Hcol.
    + intros r' Hw' Hwf' Ex Ey Ec.
      assert (Es : sh = subpix_shift (rotate_left c) r')
        by (apply subpix_shift_ext; congruence).
      rewrite Es at 1. rewrite (Hcol r' Hw' Hwf').
      unfold sh. rewrite (Hcol r Hw Hwf).
      unfold new_color. now rewrite Ec.
  - intros c p0 p1 p2 p3 d r m H0 pt Hb sh adr m'.
    assert (Esh : sh = subpix_shift (rotate_left c) (latched c p0 p1 p2 p3 reset_regs))
      by (apply subpix_shift_ext; reflexivity).
    assert (Eadr : adr = word_address fb (rotate_left c) (latched c p0 p1 p2 p3 reset_regs))
      by (apply word_address_ext; reflexivity).
    assert (Hb' : in_bounds fb (rotate_left c) (latched c p0 p1 p2 p3 reset_regs) = true)
      by (rewrite <- Hb; apply in_bounds_ext; reflexivity).
    destruct (draw_once_frame fb c p0 p1 p2 p3 r m d H0 Hb') as (Hbyte & _ & _).
    fold m' in Hbyte. rewrite <- Esh, <- Eadr in Hbyte. rewrite Hbyte.
    unfold new_byte. rewrite Cat_low.
    + reflexivity.
    + apply new_color_range.
    + assert (0 <= intensity_sum (write_state fb c p0 p1 p2 p3 r m) < 31); [|lia].
      apply intensity_sum_range. apply (unsigned_range 4); lia.
Qed.

(** C6 (as the code has it).  Pixel [k] of a word occupies the byte at bit
    offset [8 * k].  Within that byte the intensity is the upper nibble
    (bits 7:4) and the color the lower nibble (bits 3:0): WRITE packs
    [Cat(new_color, intensity)], and the existing intensity added to the
    step is bits 7:4 of the byte extracted when the read is acknowledged. *)
Theorem pixel_byte_layout :
  forall fb : DMAFramebuffer,
  (forall c r, fsm r = WRITE -> wf_regs r ->
     let b := pixel_byte (subpix_shift (rotate_left c) r)
                         (bus_dat_w (outputs c r)) in
     b = new_color c r + 16 * Z.min 15 (intensity_sum r) /\
     bits 4 8 b = Z.min 15 (intensity_sum r) /\
     bits 0 4 b = new_color c r) /\
  (forall r i, fsm r = READ -> bus_ack i = true -> fb_enable i = true ->
     let sh := subpix_shift (rotate_left (cfg i)) r in
     let r' := step fb r i in
     px_sum r' = pixel_byte sh (bus_dat_r i) /\
     intensity_sum r' = bits (sh + 4) (sh + 8) (bus_dat_r i) + sample_intensity r) /\
  (forall rot r,
     subpix_shift rot r = 8 * ((if rot then - sample_y r else sample_x r) mod 4)).
Proof.
  intros fb.
  assert (Hsum : forall r i,
            unsigned 16 (Z.land (Z.shiftr (bus_dat_r i)
                                   (subpix_shift (rotate_left (cfg i)) r)) 0xff) =
            pixel_byte (subpix_shift (rotate_left (cfg i)) r) (bus_dat_r i)).
  { intros r i. apply unsigned_small. change (2 ^ 16) with 65536.
    pose proof (pixel_byte_range (subpix_shift (rotate_left (cfg i)) r) (bus_dat_r i)).
    lia. }
  split; [|split].
  - intros c r Hw (_ & _ & _ & Hi & _ & _) b. subst b.
    rewrite (outputs_write c r Hw). cbn [bus_dat_w].
    rewrite written_byte by exact Hi. unfold new_byte.
    pose proof (intensity_sum_range r Hi).
    pose proof (new_color_range c r).
    rewrite Cat_high, Cat_low by lia.
    repeat split. apply Cat_add; lia.
  - intros r i Hr Ha He sh r'. subst r'.
    rewrite (step_read_ack fb r i Hr Ha He). unfold intensity_sum.
    cbn [px_sum sample_intensity latch_read]. rewrite Hsum. fold sh.
    pose proof (subpix_shift_bounds (rotate_left (cfg i)) r) as [? ?].
    rewrite bits_pixel_byte by (unfold sh; lia).
    split; reflexivity.
  - intros rot r. rewrite subpix_shift_mod. destruct rot; lia.
Qed.

(** C4 (as the code has it).  The sub-word shift is [(x mod 4) * 8], or
    [((-y) mod 4) * 8] when rotated.  The horizontal and vertical indices are
    16-bit unsigned signals: they hold the stated sums modulo [2^16], and
    the sums themselves when these lie in [0, 2^16).  For a point that passes
    the bounds check the address register receives
    [fb_base + (vertical * fb_hwords + horizontal) mod 2^32] truncated to the
    bus address width, which is [fb_base + vertical * fb_hwords + horizontal]
    when the framebuffer fits the address space. *)
Theorem address_mapping :
  forall (fb : DMAFramebuffer) (r : Regs),
  (subpix_shift false r = (sample_x r mod 4) * 8 /\
   x_offs fb false r = (fb_hwords fb / 2 + Z.shiftr (sample_x r) 2) mod 2 ^ 16 /\
   y_offs fb false r = (sample_y r + v_active fb / 2) mod 2 ^ 16) /\
  (subpix_shift true r = ((- sample_y r) mod 4) * 8 /\
   x_offs fb true r = (fb_hwords fb / 2 + Z.shiftr (- sample_y r) 2) mod 2 ^ 16 /\
   y_offs fb true r = (sample_x r + v_active fb / 2) mod 2 ^ 16) /\
  (0 <= fb_hwords fb / 2 + Z.shiftr (sample_x r) 2 < 2 ^ 16 ->
   x_offs fb false r = fb_hwords fb / 2 + Z.shiftr (sample_x r) 2) /\
  (0 <= fb_hwords fb / 2 + Z.shiftr (- sample_y r) 2 < 2 ^ 16 ->
   x_offs fb true r = fb_hwords fb / 2 + Z.shiftr (- sample_y r) 2) /\
  (0 <= sample_y r + v_active fb / 2 < 2 ^ 16 ->
   y_offs fb false r = sample_y r + v_active fb / 2) /\
  (0 <= sample_x r + v_active fb / 2 < 2 ^ 16 ->
   y_offs fb true r = sample_x r + v_active fb / 2) /\
  (forall i, fsm r = LATCH1 -> fb_enable i = true ->
     let rot := rotate_left (cfg i) in
     in_bounds fb rot r = true ->
     fsm (step fb r i) = READ /\
     bus_adr (step fb r i) =
       (fb_base fb + (y_offs fb rot r * fb_hwords fb + x_offs fb rot r) mod 2 ^ 32)
         mod 2 ^ addr_width fb /\
     (0 <= fb_base fb -> v_active fb * fb_hwords fb <= 2 ^ 32 ->
      fb_base fb + v_active fb * fb_hwords fb <= 2 ^ addr_width fb ->
      bus_adr (step fb r i) =
        fb_base fb + y_offs fb rot r * fb_hwords fb + x_offs fb rot r)).
Proof.
  intros fb r.
  assert (Hhalf : Z.shiftr (v_active fb) 1 = v_active fb / 2)
    by (rewrite Z.shiftr_div_pow2 by lia; reflexivity).
  split; [|split].
  - rewrite (subpix_shift_mod false r). unfold x_offs, y_offs, unsigned.
    rewrite Hhalf. repeat split; reflexivity.
  - rewrite (subpix_shift_mod true r). unfold x_offs, y_offs, unsigned.
    rewrite Hhalf. repeat split; reflexivity.
  - split; [intros; unfold x_offs; now apply unsigned_small|].
    split; [intros; unfold x_offs; now apply unsigned_small|].
    split; [intros; unfold y_offs; rewrite Hhalf; now apply unsigned_small|].
    split; [intros; unfold y_offs; rewrite Hhalf; now apply unsigned_small|].
    intros i H1 He rot Hb.
    assert (Hs : step fb r i = latch_address fb rot r).
    { unfold step. rewrite He, H1. cbn. fold rot. now rewrite Hb. }
    rewrite Hs. split; [reflexivity|]. split; [reflexivity|].
    intros Hbase H32 Hfit. cbn [bus_adr latch_address].
    unfold pixel_offs, unsigned.
    unfold in_bounds in Hb. apply andb_true_iff in Hb as [Hx Hy].
    apply Z.ltb_lt in Hx, Hy.
    assert (0 <= x_offs fb rot r) by (destruct rot; apply (unsigned_range 16); lia).
    assert (0 <= y_offs fb rot r) by (destruct rot; apply (unsigned_range 16); lia).
    assert (0 <= y_offs fb rot r * fb_hwords fb + x_offs fb rot r
            < v_active fb * fb_hwords fb) by nia.
    rewrite (Z.mod_small (_ * _ + _)) by lia.
    rewrite Z.mod_small by lia. lia.
Qed.

(** C2.  A point that is captured and whose horizontal index is at or
    beyond the framebuffer width in words, or whose vertical index is at or
    beyond the active height, causes no bus request in the capture cycle nor
    in the bounds-check cycle; the memory is left as it was; and the step
    after the bounds check finds the engine in LATCH0 with [ready] asserted
    and no request. *)
Theorem out_of_bounds_discarded :
  forall (fb : DMAFramebuffer) r m e0 e1,
    fsm r = LATCH0 ->
    env_valid e0 = true -> env_fb_enable e0 = true -> env_fb_enable e1 = true ->
    let r1 := fst (sys_step fb (r, m) e0) in
    let rot := rotate_left (env_cfg e1) in
    (fb_hwords fb <= x_offs fb rot r1 \/ v_active fb <= y_offs fb rot r1) ->
    let s2 := sys_run fb (r, m) [e0; e1] in
    fsm r1 = LATCH1 /\
    bus_stb (outputs (env_cfg e0) r) = false /\
    bus_cyc (outputs (env_cfg e0) r) = false /\
    bus_stb (outputs (env_cfg e1) r1) = false /\
    bus_cyc (outputs (env_cfg e1) r1) = false /\
    bus_we (outputs (env_cfg e1) r1) = false /\
    snd s2 = m /\
    fst s2 = set_fsm LATCH0 r1 /\
    (forall c, ready (outputs c (fst s2)) = true /\
               bus_stb (outputs c (fst s2)) = false /\
               bus_cyc (outputs c (fst s2)) = false).
Proof.
  intros fb r m e0 e1 H0 Hv E0 E1 r1 rot Hout s2.
  assert (Hs1 : sys_step fb (r, m) e0 = (latch_sample (sys_inputs fb r m e0) r, m)).
  { unfold sys_step, step, outputs. cbn [fst snd]. rewrite H0.
    change (fb_enable (sys_inputs fb r m e0)) with (env_fb_enable e0).
    change (valid (sys_inputs fb r m e0)) with (env_valid e0).
    rewrite E0, Hv. reflexivity. }
  assert (Hr1 : r1 = latch_sample (sys_inputs fb r m e0) r)
    by (unfold r1; now rewrite Hs1).
  assert (H1 : fsm r1 = LATCH1) by (rewrite Hr1; reflexivity).
  assert (Hb : in_bounds fb rot r1 = false).
  { unfold in_bounds. apply andb_false_iff.
    destruct Hout; [left | right]; apply Z.ltb_ge; assumption. }
  assert (Hs2 : sys_step fb (r1, m) e1 = (set_fsm LATCH0 r1, m)).
  { unfold sys_step, step, outputs. cbn [fst snd]. rewrite H1.
    change (fb_enable (sys_inputs fb r1 m e1)) with (env_fb_enable e1).
    change (rotate_left (cfg (sys_inputs fb r1 m e1))) with rot.
    rewrite E1, Hb. reflexivity. }
  assert (Hrun : s2 = (set_fsm LATCH0 r1, m)).
  { unfold s2, sys_run. cbn [fold_left]. rewrite Hs1, <- Hr1. exact Hs2. }
  rewrite Hrun. cbn [fst snd].
  unfold outputs. rewrite H0, H1. cbn [fsm set_fsm].
  repeat split; reflexivity.
Qed.

(** ** Timing and ordering of the bus requests *)

(** Which state an FSM state can have been entered from. *)
Lemma step_pred fb r i :
  match fsm (step fb r i) with
  | WAIT  => fsm r = READ /\ bus_ack i = true /\ fb_enable i = true
  | WAIT2 => fsm r = WAIT /\ fb_enable i = true
  | WAIT3 => fsm r = WAIT2 /\ fb_enable i = true
  | WRITE => (fsm r = WAIT3 \/ fsm r = WRITE) /\ fb_enable i = true
  | READ  => (fsm r = LATCH1 \/ fsm r = READ) /\ fb_enable i = true
  | _ => True
  end.
Proof.
  unfold step, outputs.
  destruct (fb_enable i); cbn [negb]; [|exact I].
  destruct r as [st sx sy sp sc si pr ps bs ba]; cbn [fsm].
  destruct st; cbn;
    repeat match goal with |- context [if ?b then _ else _] => destruct b end;
    cbn; auto.
Qed.

(** C7.  Once a read is acknowledged the FSM passes through exactly three
    states, WAIT, WAIT2 and WAIT3, one cycle each and whatever the bus
    inputs are meanwhile; no request is driven in any of them, and the
    write request is driven in the cycle that follows.  Conversely, every
    entry into WRITE comes from such an acknowledged read followed by
    these three idle cycles. *)
Theorem latency_drain :
  forall (fb : DMAFramebuffer) r i0 i1 i2 i3,
  (fsm r = READ -> bus_ack i0 = true ->
   fb_enable i0 = true -> fb_enable i1 = true ->
   fb_enable i2 = true -> fb_enable i3 = true ->
   fsm (run fb r [i0]) = WAIT /\
   fsm (run fb r [i0; i1]) = WAIT2 /\
   fsm (run fb r [i0; i1; i2]) = WAIT3 /\
   fsm (run fb r [i0; i1; i2; i3]) = WRITE /\
   (forall c,
      bus_stb (outputs c (run fb r [i0])) = false /\
      bus_cyc (outputs c (run fb r [i0])) = false /\
      bus_stb (outputs c (run fb r [i0; i1])) = false /\
      bus_cyc (outputs c (run fb r [i0; i1])) = false /\
      bus_stb (outputs c (run fb r [i0; i1; i2])) = false /\
      bus_cyc (outputs c (run fb r [i0; i1; i2])) = false /\
      bus_stb (outputs c (run fb r [i0; i1; i2; i3])) = true /\
      bus_cyc (outputs c (run fb r [i0; i1; i2; i3])) = true /\
      bus_we (outputs c (run fb r [i0; i1; i2; i3])) = true)) /\
  (fsm (run fb r [i0; i1; i2; i3]) = WRITE ->
   fsm (run fb r [i0; i1; i2]) <> WRITE ->
   fsm r = READ /\ bus_ack i0 = true /\
   fsm (run fb r [i0]) = WAIT /\
   fsm (run fb r [i0; i1]) = WAIT2 /\
   fsm (run fb r [i0; i1; i2]) = WAIT3).
Proof.
  intros fb r i0 i1 i2 i3. split.
  - intros H Ha E0 E1 E2 E3.
    destruct (read_to_write fb r i0 i1 i2 i3 H Ha E0 E1 E2 E3)
      as (-> & -> & -> & ->).
    repeat split; reflexivity.
  - unfold run. cbn [fold_left]. intros H4 H3.
    pose proof (step_pred fb (step fb (step fb (step fb r i0) i1) i2) i3) as P4.
    rewrite H4 in P4. destruct P4 as [[P4|P4] _]; [|contradiction].
    pose proof (step_pred fb (step fb (step fb r i0) i1) i2) as P3.
    rewrite P4 in P3. destruct P3 as [P3 _].
    pose proof (step_pred fb (step fb r i0) i1) as P2.
    rewrite P3 in P2. destruct P2 as [P2 _].
    pose proof (step_pred fb r i0) as P1.
    rewrite P2 in P1. destruct P1 as (P1 & Ha & _).
    repeat split; assumption.
Qed.

(** *** The interface trace obeys the transaction protocol *)

Lemma mon_step_sim fb ph r i :
  sim ph r ->
  exists ph', mon_step ph (outputs (cfg i) r) i = Some ph' /\
              sim ph' (step fb r i).
Proof.
  unfold sim, mon_step, step, outputs.
  destruct r as [st sx sy sp sc si pr ps bs ba]; cbn [fsm].
  destruct st; cbn; intros H;
    repeat match type of H with _ \/ _ => destruct H as [H|H] end; subst ph;
    destruct (fb_enable i); cbn;
    repeat match goal with
           | |- context [if ?b then _ else _] => destruct b; cbn
           end;
    eexists; (split; [reflexivity | cbn; auto]).
Qed.

Lemma mon_run_sim fb ins : forall ph r, sim ph r -> mon_run fb ph r ins = true.
Proof.
  induction ins as [|i ins IH]; intros ph r Hs; cbn [mon_run]; [reflexivity|].
  destruct (mon_step_sim fb ph r i Hs) as (ph' & -> & Hs').
  now apply IH.
Qed.

(** *** The latched sample is held *)

Lemma step_keeps_sample fb r i :
  fb_enable i = true -> ready (outputs (cfg i) r) && valid i = false ->
  sample_regs (step fb r i) = sample_regs r.
Proof.
  intros He Hacc. unfold step, outputs in *. rewrite He. cbn [negb].
  destruct r as [st sx sy sp sc si pr ps bs ba]; cbn [fsm] in *.
  destruct st; cbn in *;
    repeat match goal with |- context [if ?b then _ else _] => destruct b end;
    try reflexivity; discriminate.
Qed.

Lemma run_keeps_sample fb ins : forall r,
  Forall (fun i => fb_enable i = true) ins ->
  (forall k, (k < length ins)%nat -> fsm (run fb r (firstn k ins)) <> LATCH0) ->
  sample_regs (run fb r ins) = sample_regs r.
Proof.
  induction ins as [|i ins IH]; intros r Hen Hk; [reflexivity|].
  inversion Hen as [|? ? He Hen']; subst.
  change (run fb r (i :: ins)) with (run fb (step fb r i) ins).
  rewrite IH; [| exact Hen' |].
  - apply step_keeps_sample; [exact He|].
    specialize (Hk 0%nat (Nat.lt_0_succ _)). cbn in Hk.
    unfold outputs. destruct (fsm r); try reflexivity. contradiction.
  - intros k Hlt. apply (Hk (S k)). cbn [length]. lia.
Qed.

(** C3.  Watched from the bus and the point stream, every run of the engine
    from reset, under any inputs, follows the protocol of [mon_step]: a
    request is made only for a point that was accepted; a write is requested
    only after that point's read was acknowledged and three idle cycles
    passed; no second read and no new point come between a read and its
    write; and a new point is accepted only when nothing is outstanding.
    [ready] and a bus request are never asserted together.  The sample
    registers change only in a cycle in which a point is accepted, so they
    are unchanged from the capture until the FSM is back in LATCH0. *)
Theorem transactions_serialized :
  forall fb : DMAFramebuffer,
  (forall ins, mon_run fb Free reset_regs ins = true) /\
  (forall c r,
     ready (outputs c r) && bus_stb (outputs c r) = false /\
     bus_cyc (outputs c r) = bus_stb (outputs c r) /\
     (bus_we (outputs c r) = true -> bus_stb (outputs c r) = true)) /\
  (forall r i,
     fb_enable i = true -> ready (outputs (cfg i) r) && valid i = false ->
     sample_regs (step fb r i) = sample_regs r) /\
  (forall r ins,
     Forall (fun i => fb_enable i = true) ins ->
     (forall k, (k < length ins)%nat -> fsm (run fb r (firstn k ins)) <> LATCH0) ->
     sample_regs (run fb r ins) = sample_regs r).
Proof.
  intros fb. split; [|split; [|split]].
  - intros ins. apply mon_run_sim. reflexivity.
  - intros c r. unfold outputs. destruct (fsm r); cbn; repeat split; auto; discriminate.
  - apply step_keeps_sample.
  - intros r ins. apply run_keeps_sample.
Qed.

(** What the monitor refuses: a request for no point, a write before the
    read, a new point or a second read between a read and its write, and a
    write before three idle cycles have passed. *)
Lemma mon_step_rejects o i k :
  (bus_stb o = true -> mon_step Free o i = None) /\
  (bus_stb o = true -> bus_we o = true -> mon_step Held o i = None) /\
  (ready o = true -> mon_step Reading o i = None) /\
  (ready o = true -> mon_step (ReadDone k) o i = None) /\
  (bus_stb o = true -> bus_we o = false -> mon_step (ReadDone k) o i = None) /\
  (bus_stb o = true -> (k < 3)%nat -> mon_step (ReadDone k) o i = None).
Proof.
  unfold mon_step.
  repeat split; intros;
    repeat match goal with H : _ = true |- _ => rewrite H end;
    repeat match goal with H : _ = false |- _ => rewrite H end;
    try match goal with H : (k < 3)%nat |- _ =>
          apply Nat.leb_gt in H; rewrite H end;
    destruct (bus_cyc o), (fb_enable i); cbn;
    rewrite ?andb_false_r; cbn;
    repeat match goal with |- context [if ?b then _ else _] => destruct b; cbn end;
    reflexivity.
Qed.

(** ** The sub-word shift across one transaction *)

Lemma run_write_stalls fb stalls : forall r,
  fsm r = WRITE ->
  Forall (fun i => fb_enable i = true /\ bus_ack i = false) stalls ->
  run fb r stalls = r.
Proof.
  induction stalls as [|i stalls IH]; intros r Hw Hall; [reflexivity|].
  inversion Hall as [|? ? [He Ha] Hall']; subst.
  change (run fb r (i :: stalls)) with (run fb (step fb r i) stalls).
  assert (Hs : step fb r i = r).
  { unfold step, outputs. rewrite He, Hw, Ha. reflexivity. }
  rewrite Hs. now apply IH.
Qed.

(** C10.  The shift depends on the registers only through the latched
    coordinates, and on the rotate flag of the current cycle; no register
    holds it, whereas the word address is registered at the bounds check.
    Along a transaction (read acknowledged, three waits, any number of
    stalled write cycles) the coordinates do not change, so when the rotate
    flag seen by the write cycle equals the one seen when the read was
    acknowledged, the byte captured into [px_sum] was extracted at the very
    shift at which the write payload masks and inserts.  When the flag
    differs between the two cycles the two shifts can differ. *)
Theorem shift_is_combinational :
  forall fb : DMAFramebuffer,
  (forall rot r r',
     sample_x r = sample_x r' -> sample_y r = sample_y r' ->
     subpix_shift rot r = subpix_shift rot r') /\
  (forall r i0 i1 i2 i3 stalls iw,
     fsm r = READ -> bus_ack i0 = true ->
     fb_enable i0 = true -> fb_enable i1 = true ->
     fb_enable i2 = true -> fb_enable i3 = true ->
     Forall (fun i => fb_enable i = true /\ bus_ack i = false) stalls ->
     let rw := run fb r ([i0; i1; i2; i3] ++ stalls) in
     let sh_read := subpix_shift (rotate_left (cfg i0)) r in
     let sh_write := subpix_shift (rotate_left (cfg iw)) rw in
     fsm rw = WRITE /\ bus_adr rw = bus_adr r /\
     px_sum rw = pixel_byte sh_read (bus_dat_r i0) /\
     bus_dat_w (outputs (cfg iw) rw) =
       insert_byte sh_write (px_read rw) (new_byte (cfg iw) rw) /\
     (rotate_left (cfg i0) = rotate_left (cfg iw) -> sh_read = sh_write)) /\
  (exists r i0 i1 i2 i3 iw,
     fsm r = READ /\ bus_ack i0 = true /\
     fb_enable i0 = true /\ fb_enable i1 = true /\
     fb_enable i2 = true /\ fb_enable i3 = true /\
     rotate_left (cfg i0) <> rotate_left (cfg iw) /\
     subpix_shift (rotate_left (cfg i0)) r <>
     subpix_shift (rotate_left (cfg iw)) (run fb r [i0; i1; i2; i3])).
Proof.
  intros fb. split; [|split].
  - intros rot r r'. apply subpix_shift_ext.
  - intros r i0 i1 i2 i3 stalls iw H Ha E0 E1 E2 E3 Hst rw sh_read sh_write.
    destruct (read_to_write fb r i0 i1 i2 i3 H Ha E0 E1 E2 E3) as (_ & _ & _ & Hrun).
    assert (Hrw : rw = set_fsm WRITE (latch_read i0 r)).
    { unfold rw. rewrite run_app, Hrun. now apply run_write_stalls. }
    assert (Hsh : forall rot, subpix_shift rot rw = subpix_shift rot r)
      by (intros rot; rewrite Hrw; apply subpix_shift_ext; reflexivity).
    split; [rewrite Hrw; reflexivity|].
    split; [rewrite Hrw; reflexivity|].
    split.
    { rewrite Hrw. cbn [px_sum set_fsm latch_read]. fold sh_read.
      apply unsigned_small. change (2 ^ 16) with 65536.
      pose proof (pixel_byte_range sh_read (bus_dat_r i0)). lia. }
    split.
    { rewrite outputs_write by (rewrite Hrw; reflexivity).
      cbn [bus_dat_w]. apply write_word_insert. }
    intros Hrot. unfold sh_read, sh_write. now rewrite Hsh, Hrot.
  - exists (mkRegs READ 1 0 0 0 1 0 0 15 264).
    exists (demo_in (demo_cfg 1) 1 0 true 0).
    exists (demo_in (demo_cfg 1) 1 0 false 0).
    exists (demo_in (demo_cfg 1) 1 0 false 0).
    exists (demo_in (demo_cfg 1) 1 0 false 0).
    exists (demo_in (mkConfig 5 1 0 0 0 0 true true) 1 0 true 0).
    repeat split; try reflexivity; cbn; discriminate.
Qed.

(** ** How the configuration is consumed *)

(** Outside LATCH1 the rotate flag reaches no register but [px_sum]. *)
Lemma step_rotate_only fb r i i' :
  same_but_rotate i i' -> fsm r <> LATCH1 ->
  fsm (step fb r i) = fsm (step fb r i') /\
  bus_adr (step fb r i) = bus_adr (step fb r i') /\
  bus_sel (step fb r i) = bus_sel (step fb r i') /\
  sample_regs (step fb r i) = sample_regs (step fb r i') /\
  px_read (step fb r i) = px_read (step fb r i') /\
  (fsm r <> READ -> step fb r i = step fb r i').
Proof.
  intros (Hh & Hi & Hsx & Hsy & Hox & Hoy & Hen & Hfb & Hv & H0 & H1 & H2 & H3 & Ha & Hd) Hne.
  unfold step, outputs. rewrite Hfb, Hen, Hv, Ha.
  destruct (negb (fb_enable i')); [repeat split; reflexivity|].
  destruct r as [st sx sy sp sc si pr ps bs ba]; cbn [fsm] in *.
  destruct st; try contradiction; cbn [bus_stb andb];
    try (repeat split; reflexivity).
  - (* LATCH0 *)
    destruct (valid i'); [|repeat split; reflexivity].
    unfold latch_sample, sample_regs; cbn.
    rewrite Hi, Hsx, Hsy, Hox, Hoy, H0, H1, H2, H3. repeat split; reflexivity.
  - (* READ *)
    destruct (bus_ack i');
      [|repeat split; try reflexivity; intros N; now elim N].
    unfold latch_read, sample_regs; cbn. rewrite Hd.
    repeat split; try reflexivity. intros N; now elim N.
Qed.

Lemma step_keeps_address fb r i :
  fb_enable i = true -> fsm r <> LATCH1 ->
  bus_adr (step fb r i) = bus_adr r /\ bus_sel (step fb r i) = bus_sel r.
Proof.
  intros He Hne. unfold step, outputs. rewrite He. cbn [negb].
  destruct r as [st sx sy sp sc si pr ps bs ba]; cbn [fsm] in *.
  destruct st; try contradiction; cbn [bus_stb andb];
    repeat match goal with |- context [if ?b then _ else _] => destruct b end;
    split; reflexivity.
Qed.

Lemma run_keeps_address fb ins : forall r,
  Forall (fun i => fb_enable i = true) ins ->
  (forall k, (k < length ins)%nat -> fsm (run fb r (firstn k ins)) <> LATCH1) ->
  bus_adr (run fb r ins) = bus_adr r.
Proof.
  induction ins as [|i ins IH]; intros r Hen Hk; [reflexivity|].
  inversion Hen as [|? ? He Hen']; subst.
  change (run fb r (i :: ins)) with (run fb (step fb r i) ins).
  rewrite IH; [| exact Hen' |].
  - apply step_keeps_address; [exact He|].
    exact (Hk 0%nat (Nat.lt_0_succ _)).
  - intros k Hlt. apply (Hk (S k)). cbn [length]. lia.
Qed.

(** C8 (as the code has it).  The intensity step, the two scales and the
    two offsets are sampled only in the cycle in which a point is captured:
    outside LATCH0 neither the next state nor any output depends on them,
    and the capture stores what they are in that cycle.  [enable] is looked
    at in state OFF only.  The hue is read combinationally: the color of
    the write payload follows its value in the write cycle itself.  The
    rotate flag is read combinationally for the sub-word shift only: the
    byte captured at the read acknowledge is extracted, and the byte of the
    write payload inserted, at the shift given by the flag of that very
    cycle, and changing the hue or the flag alone can change the payload.
    The bounds decision and the word address, however, use the flag of the
    bounds-check cycle and are registered there: outside LATCH1 the flag
    reaches no register but [px_sum], and the address register keeps its
    value until the next bounds check, so that a flag changed after the
    bounds check gives a payload shifted for one orientation at the address
    of the other. *)
Theorem config_consumption :
  forall fb : DMAFramebuffer,
  (forall r i i', same_but_captured i i' ->
     outputs (cfg i) r = outputs (cfg i') r /\
     (fsm r <> LATCH0 -> step fb r i = step fb r i')) /\
  (forall r i i', same_but_enable i i' -> fsm r <> OFF ->
     outputs (cfg i) r = outputs (cfg i') r /\ step fb r i = step fb r i') /\
  (forall r i, fsm r = LATCH0 -> valid i = true -> fb_enable i = true ->
     let r' := step fb r i in
     sample_intensity r' = intensity (cfg i) mod 2 ^ 4 /\
     sample_x r' = signed 16 (Z.shiftr (payload0 i) (scale_x (cfg i)) + x_offset (cfg i)) /\
     sample_y r' = signed 16 (Z.shiftr (payload1 i) (scale_y (cfg i)) + y_offset (cfg i))) /\
  (forall c r, fsm r = WRITE -> wf_regs r ->
     let sh := subpix_shift (rotate_left c) r in
     bus_dat_w (outputs c r) = insert_byte sh (px_read r) (new_byte c r) /\
     bits 0 4 (pixel_byte sh (bus_dat_w (outputs c r))) =
       (Z.shiftr (sample_c r) 10 + hue c) mod 2 ^ 4 /\
     bits 4 8 (pixel_byte sh (bus_dat_w (outputs c r))) =
       Z.min 15 (bits 4 8 (px_sum r) + sample_intensity r)) /\
  (exists r h h' rot rot',
     fsm r = WRITE /\ wf_regs r /\
     bus_dat_w (outputs (mkConfig h 1 0 0 0 0 rot true) r) <>
     bus_dat_w (outputs (mkConfig h' 1 0 0 0 0 rot true) r) /\
     bus_dat_w (outputs (mkConfig h 1 0 0 0 0 rot true) r) <>
     bus_dat_w (outputs (mkConfig h 1 0 0 0 0 rot' true) r)) /\
  (forall r i, fsm r = READ -> bus_ack i = true -> fb_enable i = true ->
     px_sum (step fb r i) =
       pixel_byte (subpix_shift (rotate_left (cfg i)) r) (bus_dat_r i)) /\
  (forall r i, fsm r = LATCH1 -> fb_enable i = true ->
     let rot := rotate_left (cfg i) in
     (in_bounds fb rot r = true ->
        fsm (step fb r i) = READ /\
        bus_adr (step fb r i) = word_address fb rot r) /\
     (in_bounds fb rot r = false -> step fb r i = set_fsm LATCH0 r)) /\
  (forall r i i', same_but_rotate i i' -> fsm r <> LATCH1 ->
     fsm (step fb r i) = fsm (step fb r i') /\
     bus_adr (step fb r i) = bus_adr (step fb r i') /\
     bus_sel (step fb r i) = bus_sel (step fb r i') /\
     sample_regs (step fb r i) = sample_regs (step fb r i') /\
     px_read (step fb r i) = px_read (step fb r i') /\
     (fsm r <> READ -> step fb r i = step fb r i')) /\
  (forall r ins,
     Forall (fun i => fb_enable i = true) ins ->
     (forall k, (k < length ins)%nat -> fsm (run fb r (firstn k ins)) <> LATCH1) ->
     bus_adr (run fb r ins) = bus_adr r) /\
  (exists r c',
     reachable demo_fb r /\ fsm r = WRITE /\ rotate_left c' = true /\
     bus_adr r = word_address demo_fb false r /\
     in_bounds demo_fb true r = true /\
     bus_adr r <> word_address demo_fb true r /\
     subpix_shift (rotate_left c') r <> subpix_shift false r /\
     bus_dat_w (outputs c' r) =
       insert_byte (subpix_shift true r) (px_read r) (new_byte c' r)).
Proof.
  intros fb. split; [|split; [|split; [|split; [|split; [|split; [|split; [|split; [|split]]]]]]]].
  - intros r i i' ((Hh & Hr) & Hen & Hfb & Hv & H0 & H1 & H2 & H3 & Ha & Hd).
    assert (Ho : forall q, outputs (cfg i) q = outputs (cfg i') q).
    { intros q. unfold outputs, write_word, new_color.
      rewrite Hh, Hr. reflexivity. }
    split; [apply Ho|]. intros Hne.
    unfold step. rewrite Ho, Hfb, Hen, Hr, Ha.
    destruct (negb (fb_enable i')); [reflexivity|].
    destruct (fsm r); try reflexivity; try contradiction.
    unfold latch_read. now rewrite Hr, Hd.
  - intros r i i' ((Hh & Hr) & Hi & Hsx & Hsy & Hox & Hoy & Hfb & Hv & H0 & H1 & H2 & H3 & Ha & Hd) Hne.
    assert (Ho : forall q, outputs (cfg i) q = outputs (cfg i') q).
    { intros q. unfold outputs, write_word, new_color.
      rewrite Hh, Hr. reflexivity. }
    split; [apply Ho|].
    unfold step. rewrite Ho, Hfb, Hv, Hr, Ha.
    destruct (negb (fb_enable i')); [reflexivity|].
    destruct (fsm r); try reflexivity; try contradiction.
    + unfold latch_sample. now rewrite Hi, Hsx, Hsy, Hox, Hoy, H0, H1, H2, H3.
    + unfold latch_read. now rewrite Hr, Hd.
  - intros r i H0 Hv He r'. subst r'. unfold step. rewrite He, H0, Hv.
    repeat split; reflexivity.
  - intros c r Hw (_ & _ & _ & Hi & _ & _) sh. subst sh.
    rewrite (outputs_write c r Hw). cbn [bus_dat_w].
    rewrite written_color, written_intensity by exact Hi.
    repeat split. apply write_word_insert.
  - exists (mkRegs WRITE 1 0 0 0 1 0 0 15 264), 5, 6, false, true.
    split; [reflexivity|]. split; [unfold wf_regs; cbn; lia|].
    split; cbn; discriminate.
  - intros r i Hr Ha He. rewrite (step_read_ack fb r i Hr Ha He).
    cbn [px_sum latch_read]. apply unsigned_small. change (2 ^ 16) with 65536.
    pose proof (pixel_byte_range (subpix_shift (rotate_left (cfg i)) r) (bus_dat_r i)).
    lia.
  - intros r i H1 He rot. unfold step. rewrite He, H1. cbn [negb]. fold rot.
    split; intros Hb; rewrite Hb; [split|]; reflexivity.
  - apply step_rotate_only.
  - intros r ins. apply run_keeps_address.
  - exists demo_turned_state, (demo_cfg_rot 1).
    split; [apply run_reachable; constructor|].
    split; [reflexivity|]. split; [reflexivity|]. split; [reflexivity|].
    split; [reflexivity|].
    split; [vm_compute; discriminate|].
    split; [vm_compute; discriminate|].
    rewrite outputs_write by reflexivity. cbn [bus_dat_w].
    apply write_word_insert.
Qed.

(** ** Worked instances on the example framebuffer *)

Lemma demo_write_state_wf : wf_regs demo_write_state.
Proof. unfold wf_regs; cbn; lia. Defined.

Lemma intensity_saturating_add_witness :
  (fsm demo_write_state = WRITE /\ wf_regs demo_write_state /\
   bits 4 8 (pixel_byte (subpix_shift false demo_write_state)
                        (bus_dat_w (outputs (demo_cfg 8) demo_write_state))) = 1) /\
  (fsm demo_idle = LATCH0 /\ 0 <= intensity (demo_cfg 1) < 16 /\
   in_bounds demo_fb false (latched (demo_cfg 1) 0 0 0 0 demo_idle) = true /\
   bits 4 8 (pixel_byte 0
     (snd (sys_run demo_fb (demo_idle, demo_mem)
             (flat_map (draw_schedule (demo_cfg 1) 0 0 0 0)
                       [(0, 0); (2, 1); (1, 3)]%nat)) 264)) = 3).
Proof.
  destruct (intensity_saturating_add demo_fb) as [Ha Hb].
  split.
  - split; [reflexivity|]. split; [exact demo_write_state_wf|].
    exact (proj1 (Ha (demo_cfg 8) demo_write_state eq_refl demo_write_state_wf)).
  - assert (Hs : 0 <= intensity (demo_cfg 1) < 16) by (cbn; lia).
    split; [reflexivity|]. split; [exact Hs|]. split; [reflexivity|].
    exact (proj1 (proj2 (Hb (demo_cfg 1) 0 0 0 0 [(0, 0); (2, 1); (1, 3)]%nat
                            demo_idle demo_mem eq_refl Hs eq_refl))).
Defined.

Lemma write_touches_one_byte_witness :
  (fsm demo_write_state = WRITE /\ wf_regs demo_write_state /\
   pixel_byte 8 (bus_dat_w (outputs (demo_cfg 8) demo_write_state)) =
   pixel_byte 8 (px_read demo_write_state)) /\
  (fsm demo_read_state = READ /\ bus_ack demo_read_ack = true /\
   px_read (run demo_fb demo_read_state
                [demo_read_ack; demo_read_ack; demo_read_ack; demo_read_ack]) = 0x3A).
Proof.
  destruct (write_touches_one_byte demo_fb) as [Ha Hb].
  split.
  - split; [reflexivity|]. split; [exact demo_write_state_wf|].
    destruct (Ha (demo_cfg 8) demo_write_state eq_refl demo_write_state_wf)
      as (_ & _ & _ & _ & Hother).
    apply Hother; [cbn; tauto | discriminate].
  - split; [reflexivity|]. split; [reflexivity|].
    exact (proj1 (proj2 (Hb demo_read_state demo_read_ack demo_read_ack
                            demo_read_ack demo_read_ack
                            eq_refl eq_refl eq_refl eq_refl eq_refl eq_refl))).
Defined.

Lemma color_overwritten_witness :
  (fsm demo_write_state = WRITE /\ wf_regs demo_write_state /\
   bits 0 4 (pixel_byte (subpix_shift false demo_write_state)
                        (bus_dat_w (outputs (demo_cfg 8) demo_write_state))) = 5) /\
  (fsm demo_idle = LATCH0 /\
   in_bounds demo_fb false (latched (demo_cfg 1) 5 (-3) 0 2048 demo_idle) = true /\
   bits 0 4 (pixel_byte 8
     (snd (sys_run demo_fb (demo_idle, demo_mem)
             (draw_schedule (demo_cfg 1) 5 (-3) 0 2048 (1, 2)%nat)) 217)) = 7).
Proof.
  destruct (color_overwritten demo_fb) as [Ha Hb].
  split.
  - split; [reflexivity|]. split; [exact demo_write_state_wf|].
    exact (proj1 (Ha (demo_cfg 8) demo_write_state eq_refl demo_write_state_wf)).
  - split; [reflexivity|]. split; [reflexivity|].
    exact (Hb (demo_cfg 1) 5 (-3) 0 2048 (1, 2)%nat demo_idle demo_mem
              eq_refl eq_refl).
Defined.

(** C6 as stated fails on the code: the byte written for color 5 and
    intensity 1 is [0x15], so bits 7:4 hold the intensity, not the color; and
    when the byte [0x3A] is read, the intensity that enters the sum is 3
    (bits 7:4), not 10 (bits 3:0). *)
Lemma color_is_not_the_upper_nibble :
  let c := demo_cfg 8 in
  let b := pixel_byte (subpix_shift (rotate_left c) demo_write_state)
                      (bus_dat_w (outputs c demo_write_state)) in
  let r' := step demo_fb demo_read_state demo_read_ack in
  fsm demo_write_state = WRITE /\ b = 0x15 /\
  new_color c demo_write_state = 5 /\
  bits 4 8 b <> new_color c demo_write_state /\
  fsm demo_read_state = READ /\ px_sum r' = 0x3A /\
  intensity_sum r' <> bits 0 4 (px_sum r') + sample_intensity r'.
Proof.
  cbv zeta. repeat split; try reflexivity; intros H; vm_compute in H; discriminate.
Qed.

Lemma pixel_byte_layout_witness :
  (fsm demo_write_state = WRITE /\ wf_regs demo_write_state /\
   bits 4 8 (pixel_byte (subpix_shift false demo_write_state)
                        (bus_dat_w (outputs (demo_cfg 8) demo_write_state))) = 1 /\
   bits 0 4 (pixel_byte (subpix_shift false demo_write_state)
                        (bus_dat_w (outputs (demo_cfg 8) demo_write_state))) = 5) /\
  (fsm demo_read_state = READ /\ bus_ack demo_read_ack = true /\
   fb_enable demo_read_ack = true /\
   intensity_sum (step demo_fb demo_read_state demo_read_ack) = 3 + 1).
Proof.
  destruct (pixel_byte_layout demo_fb) as (Ha & Hb & _).
  split.
  - split; [reflexivity|]. split; [exact demo_write_state_wf|].
    destruct (Ha (demo_cfg 8) demo_write_state eq_refl demo_write_state_wf)
      as (_ & Hi & Hc).
    split; [exact Hi | exact Hc].
  - split; [reflexivity|]. split; [reflexivity|]. split; [reflexivity|].
    exact (proj2 (Hb demo_read_state demo_read_ack eq_refl eq_refl eq_refl)).
Defined.

(** C4 as stated fails on the code: for the latched point (-100, 0) on the
    16-word-wide framebuffer the stated sum is [8 + (-25) = -17], while the
    horizontal index signal holds [65519]. *)
Lemma horizontal_index_wraps :
  fsm demo_left_state = LATCH1 /\
  sample_x demo_left_state = -100 /\
  fb_hwords demo_fb / 2 + Z.shiftr (sample_x demo_left_state) 2 = -17 /\
  x_offs demo_fb false demo_left_state = 65519 /\
  x_offs demo_fb false demo_left_state <>
    fb_hwords demo_fb / 2 + Z.shiftr (sample_x demo_left_state) 2.
Proof.
  repeat split; try reflexivity; intros H; vm_compute in H; discriminate.
Qed.

Lemma address_mapping_witness :
  (0 <= fb_hwords demo_fb / 2 + Z.shiftr (sample_x demo_write_state) 2 < 2 ^ 16 /\
   x_offs demo_fb false demo_write_state = 8) /\
  (fsm (latched (demo_cfg 1) 5 (-3) 0 0 demo_idle) = LATCH1 /\
   in_bounds demo_fb false (latched (demo_cfg 1) 5 (-3) 0 0 demo_idle) = true /\
   bus_adr (step demo_fb (latched (demo_cfg 1) 5 (-3) 0 0 demo_idle)
                 (demo_in (demo_cfg 1) 5 (-3) false 0)) = 0 + 13 * 16 + 9).
Proof.
  split.
  - assert (H : 0 <= fb_hwords demo_fb / 2
                     + Z.shiftr (sample_x demo_write_state) 2 < 2 ^ 16)
      by (vm_compute; split; [discriminate | reflexivity]).
    split; [exact H|].
    destruct (address_mapping demo_fb demo_write_state) as (_ & _ & Hx & _).
    exact (Hx H).
  - split; [reflexivity|]. split; [reflexivity|].
    destruct (address_mapping demo_fb (latched (demo_cfg 1) 5 (-3) 0 0 demo_idle))
      as (_ & _ & _ & _ & _ & _ & Hadr).
    destruct (Hadr (demo_in (demo_cfg 1) 5 (-3) false 0) eq_refl eq_refl eq_refl)
      as (_ & _ & Hexact).
    apply Hexact; vm_compute; discriminate.
Defined.

Lemma out_of_bounds_discarded_witness :
  let e := env_draw (demo_cfg 1) (-100) 0 0 0 true in
  (fsm demo_idle = LATCH0 /\ env_valid e = true /\ env_fb_enable e = true /\
   fb_hwords demo_fb <=
     x_offs demo_fb false (fst (sys_step demo_fb (demo_idle, demo_mem) e))) /\
  snd (sys_run demo_fb (demo_idle, demo_mem) [e; e]) = demo_mem /\
  ready (outputs (demo_cfg 1)
           (fst (sys_run demo_fb (demo_idle, demo_mem) [e; e]))) = true.
Proof.
  intros e.
  assert (Hx : fb_hwords demo_fb <=
               x_offs demo_fb false (fst (sys_step demo_fb (demo_idle, demo_mem) e)))
    by (vm_compute; discriminate).
  split; [repeat split; try reflexivity; exact Hx|].
  destruct (out_of_bounds_discarded demo_fb demo_idle demo_mem e e
              eq_refl eq_refl eq_refl eq_refl (or_introl Hx))
    as (_ & _ & _ & _ & _ & _ & Hm & _ & Hc).
  split; [exact Hm | exact (proj1 (Hc (demo_cfg 1)))].
Defined.

Lemma latency_drain_witness :
  (fsm demo_read_state = READ /\ bus_ack demo_read_ack = true /\
   fb_enable demo_read_ack = true /\
   fsm (run demo_fb demo_read_state
            [demo_read_ack; demo_read_ack; demo_read_ack]) = WAIT3 /\
   bus_stb (outputs (demo_cfg 1)
              (run demo_fb demo_read_state
                   [demo_read_ack; demo_read_ack; demo_read_ack])) = false) /\
  (fsm (run demo_fb demo_read_state
            [demo_read_ack; demo_read_ack; demo_read_ack; demo_read_ack]) = WRITE /\
   fsm (run demo_fb demo_read_state
            [demo_read_ack; demo_read_ack; demo_read_ack]) <> WRITE /\
   fsm (run demo_fb demo_read_state [demo_read_ack; demo_read_ack]) = WAIT2).
Proof.
  destruct (latency_drain demo_fb demo_read_state
              demo_read_ack demo_read_ack demo_read_ack demo_read_ack)
    as [Hf Hb].
  assert (Hn : fsm (run demo_fb demo_read_state
                        [demo_read_ack; demo_read_ack; demo_read_ack]) <> WRITE)
    by (cbn; discriminate).
  split.
  - destruct (Hf eq_refl eq_refl eq_refl eq_refl eq_refl eq_refl)
      as (_ & _ & H3 & _ & Hc).
    destruct (Hc (demo_cfg 1)) as (_ & _ & _ & _ & Hs & _).
    split; [reflexivity|]. split; [reflexivity|]. split; [reflexivity|].
    split; [exact H3 | exact Hs].
  - destruct (Hb eq_refl Hn) as (_ & _ & _ & H2 & _).
    split; [reflexivity|]. split; [exact Hn | exact H2].
Defined.

Lemma transactions_serialized_witness :
  (fb_enable demo_read_ack = true /\
   ready (outputs (cfg demo_read_ack) demo_read_state) && valid demo_read_ack = false /\
   sample_regs (step demo_fb demo_read_state demo_read_ack) =
   sample_regs demo_read_state) /\
  sample_regs (run demo_fb demo_read_state
                   [demo_read_ack; demo_read_ack; demo_read_ack; demo_read_ack]) =
  sample_regs demo_read_state.
Proof.
  destruct (transactions_serialized demo_fb) as (_ & _ & Hstep & Hrun).
  split.
  - split; [reflexivity|]. split; [reflexivity|].
    exact (Hstep demo_read_state demo_read_ack eq_refl eq_refl).
  - apply Hrun.
    + repeat constructor.
    + intros k Hk.
      do 4 (destruct k as [|k]; [cbn; discriminate|]).
      cbn in Hk. lia.
Defined.

Lemma shift_is_combinational_witness :
  let stall := demo_in (demo_cfg 1) 0 0 false 0 in
  let rw := run demo_fb demo_read_state
                ([demo_read_ack; stall; stall; stall] ++ [stall; stall]) in
  (fsm demo_read_state = READ /\ bus_ack demo_read_ack = true /\
   rotate_left (cfg demo_read_ack) = rotate_left (cfg stall)) /\
  px_sum rw = pixel_byte (subpix_shift false demo_read_state) 0x3A /\
  subpix_shift false demo_read_state = subpix_shift false rw.
Proof.
  intros stall rw.
  destruct (shift_is_combinational demo_fb) as (_ & Htx & _).
  assert (Hst : Forall (fun i => fb_enable i = true /\ bus_ack i = false)
                       [stall; stall])
    by (repeat constructor).
  destruct (Htx demo_read_state demo_read_ack stall stall stall [stall; stall] stall
                eq_refl eq_refl eq_refl eq_refl eq_refl eq_refl Hst)
    as (_ & _ & Hsum & _ & Hsh).
  split; [repeat split; reflexivity|].
  split; [exact Hsum | exact (Hsh eq_refl)].
Defined.

(** C8 as stated fails on the code: the point was captured while the
    intensity step was 1; the step is 8 from the next cycle on, and the
    payload driven in the write cycle still adds 1. *)
Lemma intensity_step_change_ignored :
  let c := demo_cfg 8 in
  let written := bits 4 8 (pixel_byte 0 (bus_dat_w (outputs c demo_write_state))) in
  fsm demo_write_state = WRITE /\ intensity c = 8 /\
  bits 4 8 (px_sum demo_write_state) = 0 /\
  written = 1 /\
  written <> Z.min 15 (bits 4 8 (px_sum demo_write_state) + intensity c).
Proof.
  cbv zeta. repeat split; try reflexivity; intros H; vm_compute in H; discriminate.
Qed.

Lemma config_consumption_witness :
  let i := demo_in (demo_cfg 1) 0 0 true 0x3A in
  let i' := demo_in (mkConfig 5 8 3 2 40 (-7) false true) 0 0 true 0x3A in
  let j' := demo_in (mkConfig 5 1 0 0 0 0 false false) 0 0 true 0x3A in
  (same_but_captured i i' /\ fsm demo_read_state <> LATCH0 /\
   step demo_fb demo_read_state i = step demo_fb demo_read_state i') /\
  (same_but_enable i j' /\ fsm demo_read_state <> OFF /\
   step demo_fb demo_read_state i = step demo_fb demo_read_state j') /\
  (fsm demo_idle = LATCH0 /\ valid i' = true /\ fb_enable i' = true /\
   sample_intensity (step demo_fb demo_idle i') = 8 mod 2 ^ 4) /\
  (fsm demo_write_state = WRITE /\ wf_regs demo_write_state /\
   bits 4 8 (pixel_byte (subpix_shift false demo_write_state)
                        (bus_dat_w (outputs (demo_cfg 8) demo_write_state))) =
   Z.min 15 (bits 4 8 (px_sum demo_write_state) + sample_intensity demo_write_state)) /\
  (fsm demo_read_state = READ /\ bus_ack i = true /\ fb_enable i = true /\
   px_sum (step demo_fb demo_read_state i) =
     pixel_byte (subpix_shift false demo_read_state) 0x3A) /\
  (fsm (latched (demo_cfg 1) 1 2 0 0 demo_idle) = LATCH1 /\
   in_bounds demo_fb false (latched (demo_cfg 1) 1 2 0 0 demo_idle) = true /\
   bus_adr (step demo_fb (latched (demo_cfg 1) 1 2 0 0 demo_idle) demo_stall) =
     word_address demo_fb false (latched (demo_cfg 1) 1 2 0 0 demo_idle)) /\
  (same_but_rotate demo_stall (demo_in (demo_cfg_rot 1) 0 0 false 0) /\
   fsm demo_turned_state <> LATCH1 /\ fsm demo_turned_state <> READ /\
   step demo_fb demo_turned_state demo_stall =
   step demo_fb demo_turned_state (demo_in (demo_cfg_rot 1) 0 0 false 0)) /\
  bus_adr (run demo_fb demo_read_state [i; i'; j'; i]) = bus_adr demo_read_state.
Proof.
  intros i i' j'.
  destruct (config_consumption demo_fb)
    as (Hcap & Hen & Hlatch & Hlive & _ & Hext & Hchk & Hrot & Hadr & _).
  assert (S1 : same_but_captured i i')
    by (unfold same_but_captured, same_live; cbn; repeat split; reflexivity).
  assert (S2 : same_but_enable i j')
    by (unfold same_but_enable, same_live; cbn; repeat split; reflexivity).
  assert (N1 : fsm demo_read_state <> LATCH0) by (cbn; discriminate).
  assert (N2 : fsm demo_read_state <> OFF) by (cbn; discriminate).
  assert (S3 : same_but_rotate demo_stall (demo_in (demo_cfg_rot 1) 0 0 false 0))
    by (unfold same_but_rotate; cbn; repeat split; reflexivity).
  assert (N3 : fsm demo_turned_state <> LATCH1) by (cbn; discriminate).
  assert (N4 : fsm demo_turned_state <> READ) by (cbn; discriminate).
  split; [|split; [|split; [|split; [|split; [|split; [|split]]]]]].
  - split; [exact S1|]. split; [exact N1|].
    exact (proj2 (Hcap demo_read_state i i' S1) N1).
  - split; [exact S2|]. split; [exact N2|].
    exact (proj2 (Hen demo_read_state i j' S2 N2)).
  - split; [reflexivity|]. split; [reflexivity|]. split; [reflexivity|].
    exact (proj1 (Hlatch demo_idle i' eq_refl eq_refl eq_refl)).
  - split; [reflexivity|]. split; [exact demo_write_state_wf|].
    exact (proj2 (proj2 (Hlive (demo_cfg 8) demo_write_state eq_refl
                               demo_write_state_wf))).
  - split; [reflexivity|]. split; [reflexivity|]. split; [reflexivity|].
    exact (Hext demo_read_state i eq_refl eq_refl eq_refl).
  - split; [reflexivity|]. split; [reflexivity|].
    exact (proj2 (proj1 (Hchk (latched (demo_cfg 1) 1 2 0 0 demo_idle) demo_stall
                              eq_refl eq_refl) eq_refl)).
  - split; [exact S3|]. split; [exact N3|]. split; [exact N4|].
    destruct (Hrot demo_turned_state demo_stall
                   (demo_in (demo_cfg_rot 1) 0 0 false 0) S3 N3)
      as (_ & _ & _ & _ & _ & Hsame).
    exact (Hsame N4).
  - apply (Hadr demo_read_state [i; i'; j'; i]).
    + repeat constructor.
    + intros k Hk.
      do 4 (destruct k as [|k]; [cbn; discriminate|]).
      cbn in Hk. lia.
Defined.

(** * Further properties of the engine *)

(** ** Start, reset and stalls *)

Lemma FsmState_eq_dec_off (st : FsmState) : {st = OFF} + {st <> OFF}.
Proof. destruct st; (now left) || (right; discriminate). Qed.

Lemma step_leaves_off fb r i :
  fsm (step fb r i) <> OFF ->
  fb_enable i = true /\ (fsm r <> OFF \/ enable (cfg i) = true).
Proof.
  unfold step, outputs.
  destruct (fb_enable i); cbn [negb]; [|intros H; now elim H].
  destruct r as [st sx sy sp sc si pr ps bs ba]; cbn [fsm].
  destruct st; cbn; intros H; split; try reflexivity;
    try (left; discriminate).
  destruct (enable (cfg i)); [now right | now elim H].
Qed.

Lemma step_stays_on fb r i :
  fb_enable i = true -> fsm r <> OFF -> fsm (step fb r i) <> OFF.
Proof.
  intros He Hr. unfold step, outputs. rewrite He. cbn [negb].
  destruct r as [st sx sy sp sc si pr ps bs ba]; cbn [fsm] in *.
  destruct st; cbn; try contradiction;
    repeat match goal with |- context [if ?b then _ else _] => destruct b end;
    cbn; discriminate.
Qed.

(** X1.  [enable] is a kick: the engine leaves OFF only in a cycle in which
    the framebuffer is enabled and [enable] is high, going to LATCH0 with
    its registers untouched; until then it neither accepts points nor makes
    requests; and once out of OFF it never returns there while the
    framebuffer stays enabled, whatever [enable] does afterwards. *)
Theorem enable_is_a_kick :
  forall fb : DMAFramebuffer,
  (forall r ins, fsm r = OFF ->
     Forall (fun i => fb_enable i = false \/ enable (cfg i) = false) ins ->
     fsm (run fb r ins) = OFF /\
     (forall c, ready (outputs c (run fb r ins)) = false /\
                bus_stb (outputs c (run fb r ins)) = false)) /\
  (forall r i, fsm r = OFF -> fb_enable i = true -> enable (cfg i) = true ->
     step fb r i = set_fsm LATCH0 r) /\
  (forall r ins, fsm r <> OFF ->
     Forall (fun i => fb_enable i = true) ins ->
     fsm (run fb r ins) <> OFF).
Proof.
  intros fb. split; [|split].
  - intros r ins. revert r.
    induction ins as [|i ins IH]; intros r Hr Hall.
    + cbn. split; [exact Hr|]. intros c. unfold outputs. rewrite Hr. split; reflexivity.
    + inversion Hall as [|? ? Hi Hall']; subst.
      change (run fb r (i :: ins)) with (run fb (step fb r i) ins).
      apply IH; [|exact Hall'].
      destruct (FsmState_eq_dec_off (fsm (step fb r i))) as [E|N]; [exact E|].
      destruct (step_leaves_off fb r i N) as [He [Hn|Hen]];
        [contradiction | destruct Hi; congruence].
  - intros r i Hr He Hen. unfold step. now rewrite He, Hr, Hen.
  - intros r ins. revert r.
    induction ins as [|i ins IH]; intros r Hr Hall; [exact Hr|].
    inversion Hall as [|? ? He Hall']; subst.
    change (run fb r (i :: ins)) with (run fb (step fb r i) ins).
    apply IH; [|exact Hall']. now apply step_stays_on.
Qed.

Lemma run_reset_holds fb ins :
  Forall (fun j => fb_enable j = false \/ enable (cfg j) = false) ins ->
  run fb reset_regs ins = reset_regs.
Proof.
  induction ins as [|j ins IH]; intros Hall; [reflexivity|].
  inversion Hall as [|? ? Hj Hall']; subst.
  change (run fb reset_regs (j :: ins)) with (run fb (step fb reset_regs j) ins).
  assert (Hs : step fb reset_regs j = reset_regs).
  { unfold step. destruct (fb_enable j); cbn; [|reflexivity].
    destruct Hj as [Hj|Hj]; [discriminate | now rewrite Hj]. }
  rewrite Hs. now apply IH.
Qed.

(** X2.  A cycle with the framebuffer disabled abandons whatever the engine
    was doing: from any state the registers go to their reset values (state
    OFF, sample, read data, select and address cleared), and they stay there
    through all following cycles until one has both the framebuffer enabled
    and [enable] high; in that state nothing is requested and no point is
    accepted. *)
Theorem disable_resets :
  forall (fb : DMAFramebuffer) r i ins,
    fb_enable i = false ->
    Forall (fun j => fb_enable j = false \/ enable (cfg j) = false) ins ->
    run fb r (i :: ins) = reset_regs /\
    (forall c, outputs c (run fb r (i :: ins)) = mkOutputs false false false false 0).
Proof.
  intros fb r i ins Hi Hall.
  assert (Hr : run fb r (i :: ins) = reset_regs).
  { change (run fb r (i :: ins)) with (run fb (step fb r i) ins).
    unfold step at 1. rewrite Hi. cbn [negb]. now apply run_reset_holds. }
  split; [exact Hr|]. intros c. rewrite Hr. reflexivity.
Qed.

Lemma run_request_stalls fb stalls : forall r,
  fsm r = READ \/ fsm r = WRITE ->
  Forall (fun i => fb_enable i = true /\ bus_ack i = false) stalls ->
  run fb r stalls = r.
Proof.
  induction stalls as [|i stalls IH]; intros r Hr Hall; [reflexivity|].
  inversion Hall as [|? ? [He Ha] Hall']; subst.
  change (run fb r (i :: stalls)) with (run fb (step fb r i) stalls).
  assert (Hs : step fb r i = r).
  { unfold step, outputs. rewrite He.
    destruct Hr as [Hr|Hr]; rewrite Hr, Ha; reflexivity. }
  rewrite Hs. now apply IH.
Qed.

(** X3.  There is no timeout and no retry: while a read or a write request
    is not acknowledged (framebuffer enabled) the registers do not change at
    all, the request stays asserted with the same address and select, and
    [ready] stays low, for any number of cycles. *)
Theorem unacknowledged_request_blocks :
  forall (fb : DMAFramebuffer) r stalls,
    fsm r = READ \/ fsm r = WRITE ->
    Forall (fun i => fb_enable i = true /\ bus_ack i = false) stalls ->
    run fb r stalls = r /\
    (forall c, ready (outputs c (run fb r stalls)) = false /\
               bus_stb (outputs c (run fb r stalls)) = true /\
               bus_cyc (outputs c (run fb r stalls)) = true /\
               bus_we (outputs c (run fb r stalls)) = bus_we (outputs c r)).
Proof.
  intros fb r stalls Hr Hall.
  rewrite (run_request_stalls fb stalls r Hr Hall).
  split; [reflexivity|]. intros c. unfold outputs.
  destruct Hr as [Hr|Hr]; rewrite Hr; repeat split; reflexivity.
Qed.

(** ** Where requests go *)

Lemma word_address_range fb rot r :
  0 <= fb_base fb -> v_active fb * fb_hwords fb <= 2 ^ 32 ->
  fb_base fb + v_active fb * fb_hwords fb <= 2 ^ addr_width fb ->
  in_bounds fb rot r = true ->
  word_address fb rot r = fb_base fb + y_offs fb rot r * fb_hwords fb + x_offs fb rot r /\
  fb_base fb <= word_address fb rot r < fb_base fb + v_active fb * fb_hwords fb.
Proof.
  intros Hbase H32 Hfit Hb.
  unfold word_address. cbn [bus_adr latch_address].
  unfold pixel_offs, unsigned.
  unfold in_bounds in Hb. apply andb_true_iff in Hb as [Hx Hy].
  apply Z.ltb_lt in Hx, Hy.
  assert (0 <= x_offs fb rot r) by (destruct rot; apply (unsigned_range 16); lia).
  assert (0 <= y_offs fb rot r) by (destruct rot; apply (unsigned_range 16); lia).
  assert (0 <= y_offs fb rot r * fb_hwords fb + x_offs fb rot r
          < v_active fb * fb_hwords fb) by nia.
  rewrite (Z.mod_small (_ * _ + _)) by lia.
  rewrite Z.mod_small by lia. lia.
Qed.

Lemma request_inv_step fb r i : request_inv fb r -> request_inv fb (step fb r i).
Proof.
  unfold request_inv, step, outputs.
  destruct (fb_enable i); cbn [negb]; [|intros _; exact I].
  destruct r as [st sx sy sp sc si pr ps bs ba]; cbn [fsm].
  destruct st; cbn [fsm set_fsm latch_sample];
    try (intros H;
         repeat match goal with |- context [if ?b then _ else _] => destruct b end;
         cbn; try exact I; exact H).
  intros _.
  destruct (in_bounds fb (rotate_left (cfg i))
              (mkRegs LATCH1 sx sy sp sc si pr ps bs ba)) eqn:Hb; cbn; [|exact I].
  split; [reflexivity|].
  exists (rotate_left (cfg i)). split; [|reflexivity]. exact Hb.
Qed.

Lemma reachable_request_inv fb r : reachable fb r -> request_inv fb r.
Proof.
  induction 1; [exact I | now apply request_inv_step].
Qed.

(** X4.  Every request the engine ever makes, in any run from reset, selects
    the full word and addresses a word of the framebuffer: when the
    framebuffer fits the address space, [bus.adr] lies in
    [fb_base, fb_base + v_active * fb_hwords) whenever [stb] is high. *)
Theorem requests_stay_in_framebuffer :
  forall (fb : DMAFramebuffer) r c,
    0 <= fb_base fb -> v_active fb * fb_hwords fb <= 2 ^ 32 ->
    fb_base fb + v_active fb * fb_hwords fb <= 2 ^ addr_width fb ->
    reachable fb r -> bus_stb (outputs c r) = true ->
    bus_sel r = 0xf /\
    fb_base fb <= bus_adr r < fb_base fb + v_active fb * fb_hwords fb.
Proof.
  intros fb r c Hbase H32 Hfit Hreach Hstb.
  pose proof (reachable_request_inv fb r Hreach) as Hinv.
  unfold request_inv in Hinv. unfold outputs in Hstb.
  destruct (fsm r); cbn in Hstb; try discriminate;
    destruct Hinv as (Hsel & rot & Hb & Hadr);
    (split; [exact Hsel|]); rewrite Hadr;
    apply (word_address_range fb rot r Hbase H32 Hfit Hb).
Qed.

(** ** The bounds check and the pixel mapping *)

Lemma mapper_as_div fb rot r :
  x_offs fb rot r =
    (fb_hwords fb / 2 + (if rot then - sample_y r else sample_x r) / 4) mod 65536 /\
  y_offs fb rot r =
    ((if rot then sample_x r else sample_y r) + v_active fb / 2) mod 65536.
Proof.
  unfold x_offs, y_offs, unsigned.
  rewrite !Z.shiftr_div_pow2 by lia.
  change (2 ^ 2) with 4. change (2 ^ 1) with 2. change (2 ^ 16) with 65536.
  destruct rot; split; reflexivity.
Qed.


Lemma wrap16_cases z :
  - 65536 <= z < 65536 ->
  (0 <= z /\ z mod 65536 = z) \/ (z < 0 /\ z mod 65536 = z + 65536).
Proof.
  intros H. destruct (Z_lt_le_dec z 0); [right | left]; split; try lia.
  - symmetry. apply (Z.mod_unique z 65536 (-1)); lia.
  - apply Z.mod_small; lia.
Qed.

Lemma wrap16_inj h a a' :
  - 65536 < a - a' < 65536 ->
  (h + a) mod 65536 = (h + a') mod 65536 -> a = a'.
Proof. intros Hd E. Z.div_mod_to_equations. lia. Qed.

Lemma quarter_bounds z :
  - 32768 <= z <= 32768 ->
  - 8192 <= z / 4 <= 8192 /\ (z < 32768 -> z / 4 <= 8191).
Proof. intros. Z.div_mod_to_equations. lia. Qed.

Lemma quarter_inj z z' :
  z / 4 = z' / 4 -> z mod 4 * 8 = z' mod 4 * 8 -> z = z'.
Proof. intros. Z.div_mod_to_equations. lia. Qed.

Lemma half_bounds z : 0 <= z -> 0 <= z / 2 /\ 2 * (z / 2) <= z <= 2 * (z / 2) + 1.
Proof. intros. Z.div_mod_to_equations. lia. Qed.

(** X5.  Although LATCH1 compares the two indices against upper bounds only,
    the check is two-sided: for coordinates in the 16-bit range and a
    framebuffer of at most 57344 words by 65536 lines, a point passes
    exactly when its unwrapped horizontal index lies in [0, fb_hwords) and its
    unwrapped vertical index in [0, v_active).  Points left of or above the
    screen wrap to large indices and are discarded. *)
Theorem bounds_check_is_two_sided :
  forall (fb : DMAFramebuffer) r,
    wf_regs r ->
    0 <= fb_hwords fb <= 57344 -> 0 <= v_active fb <= 65536 ->
    (in_bounds fb false r = true <->
       0 <= fb_hwords fb / 2 + Z.shiftr (sample_x r) 2 < fb_hwords fb /\
       0 <= sample_y r + v_active fb / 2 < v_active fb) /\
    (in_bounds fb true r = true <->
       0 <= fb_hwords fb / 2 + Z.shiftr (- sample_y r) 2 < fb_hwords fb /\
       0 <= sample_x r + v_active fb / 2 < v_active fb).
Proof.
  intros fb r (Hx & Hy & _) Hhw Hv.
  unfold in_bounds.
  destruct (mapper_as_div fb false r) as [Ex Ey].
  destruct (mapper_as_div fb true r) as [Ex' Ey'].
  rewrite Ex, Ey, Ex', Ey'. clear Ex Ey Ex' Ey'.
  rewrite !andb_true_iff, !Z.ltb_lt.
  rewrite !Z.shiftr_div_pow2 by lia. change (2 ^ 2) with 4.
  destruct (half_bounds (fb_hwords fb) (proj1 Hhw)) as [Hh1 Hh2].
  destruct (half_bounds (v_active fb) (proj1 Hv)) as [Hv1 Hv2].
  destruct (quarter_bounds (sample_x r)) as [Qx Qx']; [lia|].
  destruct (quarter_bounds (- sample_y r)) as [Qy _]; [lia|].
  specialize (Qx' (proj2 Hx)).
  pose proof (wrap16_cases (fb_hwords fb / 2 + sample_x r / 4) ltac:(lia)) as W1.
  pose proof (wrap16_cases (fb_hwords fb / 2 + - sample_y r / 4) ltac:(lia)) as W2.
  pose proof (wrap16_cases (sample_y r + v_active fb / 2) ltac:(lia)) as W3.
  pose proof (wrap16_cases (sample_x r + v_active fb / 2) ltac:(lia)) as W4.
  destruct W1 as [[? ->]|[? ->]], W2 as [[? ->]|[? ->]],
           W3 as [[? ->]|[? ->]], W4 as [[? ->]|[? ->]]; lia.
Qed.

(** X6.  The mapping from in-bounds coordinates to pixels is one-to-one:
    under one rotate flag, two samples in the 16-bit range that pass the
    bounds check and get the same word address and the same sub-word shift
    have the same coordinates (the framebuffer fitting the address space). *)
Theorem pixel_mapping_injective :
  forall (fb : DMAFramebuffer) rot r r',
    wf_regs r -> wf_regs r' ->
    0 <= fb_base fb -> v_active fb * fb_hwords fb <= 2 ^ 32 ->
    fb_base fb + v_active fb * fb_hwords fb <= 2 ^ addr_width fb ->
    in_bounds fb rot r = true -> in_bounds fb rot r' = true ->
    word_address fb rot r = word_address fb rot r' ->
    subpix_shift rot r = subpix_shift rot r' ->
    sample_x r = sample_x r' /\ sample_y r = sample_y r'.
Proof.
  intros fb rot r r' (Hx & Hy & _) (Hx' & Hy' & _) Hbase H32 Hfit Hb Hb' Ha Hs.
  destruct (word_address_range fb rot r Hbase H32 Hfit Hb) as [E _].
  destruct (word_address_range fb rot r' Hbase H32 Hfit Hb') as [E' _].
  rewrite E, E' in Ha. clear E E'.
  unfold in_bounds in Hb, Hb'.
  apply andb_true_iff in Hb as [Hb _]. apply andb_true_iff in Hb' as [Hb' _].
  apply Z.ltb_lt in Hb, Hb'.
  assert (X0 : 0 <= x_offs fb rot r) by (destruct rot; apply (unsigned_range 16); lia).
  assert (X0' : 0 <= x_offs fb rot r') by (destruct rot; apply (unsigned_range 16); lia).
  assert (EY : y_offs fb rot r = y_offs fb rot r') by nia.
  assert (EX : x_offs fb rot r = x_offs fb rot r') by nia.
  clear Ha Hb Hb' X0 X0'.
  rewrite !subpix_shift_mod in Hs.
  destruct (mapper_as_div fb rot r) as [Ex Ey].
  destruct (mapper_as_div fb rot r') as [Ex' Ey'].
  rewrite Ex, Ex' in EX. rewrite Ey, Ey' in EY. clear Ex Ey Ex' Ey'.
  destruct (quarter_bounds (sample_x r)); [lia|].
  destruct (quarter_bounds (sample_x r')); [lia|].
  destruct (quarter_bounds (- sample_y r)); [lia|].
  destruct (quarter_bounds (- sample_y r')); [lia|].
  rewrite (Z.add_comm _ (v_active fb / 2)) in EY.
  rewrite (Z.add_comm _ (v_active fb / 2)) in EY.
  destruct rot.
  - apply wrap16_inj in EY; [|lia]. apply wrap16_inj in EX; [|lia].
    pose proof (quarter_inj _ _ EX Hs). lia.
  - apply wrap16_inj in EY; [|lia]. apply wrap16_inj in EX; [|lia].
    pose proof (quarter_inj _ _ EX Hs). lia.
Qed.

Lemma signed16_small v : - 32768 <= v < 32768 -> signed 16 v = v.
Proof.
  intros Hv. unfold signed. change (2 ^ (16 - 1)) with 32768.
  change (2 ^ 16) with 65536. rewrite Z.mod_small; lia.
Qed.

Lemma quarter_of_pixel a k : 0 <= k < 4 -> (4 * a + k) / 4 = a /\ (4 * a + k) mod 4 = k.
Proof. intros. Z.div_mod_to_equations. lia. Qed.

(** X7.  Every pixel of the framebuffer can be drawn: with scales and
    offsets at zero, the pixel [k] of the word in column [X] and line [Y] is
    the one addressed by the point [(4 * (X - fb_hwords / 2) + k,
    Y - v_active / 2)], or by that point turned a quarter when the rotate
    flag is set; the point is representable in 16 bits and passes the
    bounds check (framebuffer of at most 16383 words by 65536 lines). *)
Theorem every_pixel_drawable :
  forall (fb : DMAFramebuffer) c X Y k p2 p3 r,
    0 <= X < fb_hwords fb -> 0 <= Y < v_active fb -> 0 <= k < 4 ->
    fb_hwords fb <= 16383 -> v_active fb <= 65536 ->
    scale_x c = 0 -> scale_y c = 0 -> x_offset c = 0 -> y_offset c = 0 ->
    let u := 4 * (X - fb_hwords fb / 2) + k in
    let w := Y - v_active fb / 2 in
    let rot := rotate_left c in
    let pt := latched c (if rot then w else u) (if rot then - u else w) p2 p3 r in
    (- 32768 <= u < 32768 /\ - 32768 <= w < 32768 /\ - 32768 <= - u < 32768) /\
    in_bounds fb rot pt = true /\
    x_offs fb rot pt = X /\ y_offs fb rot pt = Y /\
    subpix_shift rot pt = 8 * k.
Proof.
  intros fb c X Y k p2 p3 r HX HY Hk Hhw Hv Sx Sy Ox Oy u w rot pt.
  destruct (half_bounds (fb_hwords fb)) as [Hh1 Hh2]; [lia|].
  destruct (half_bounds (v_active fb)) as [Hv1 Hv2]; [lia|].
  assert (Ru : - 32768 <= u < 32768) by (unfold u; lia).
  assert (Rw : - 32768 <= w < 32768) by (unfold w; lia).
  assert (Rn : - 32768 <= - u < 32768) by (unfold u; lia).
  split; [repeat split; lia|].
  destruct (quarter_of_pixel (X - fb_hwords fb / 2) k Hk) as [Qd Qm].
  fold u in Qd, Qm.
  assert (Ex : sample_x pt = if rot then w else u).
  { unfold pt, latched, latch_sample; cbn [sample_x cfg payload0].
    rewrite Sx, Ox, Z.shiftr_0_r, Z.add_0_r.
    apply signed16_small. destruct rot; lia. }
  assert (Ey : sample_y pt = if rot then - u else w).
  { unfold pt, latched, latch_sample; cbn [sample_y cfg payload1].
    rewrite Sy, Oy, Z.shiftr_0_r, Z.add_0_r.
    apply signed16_small. destruct rot; lia. }
  assert (Hxo : x_offs fb rot pt = X).
  { rewrite (proj1 (mapper_as_div fb rot pt)), Ex, Ey.
    replace (if rot then - (if rot then - u else w) else if rot then w else u)
      with u by (destruct rot; lia).
    rewrite Qd. replace (fb_hwords fb / 2 + (X - fb_hwords fb / 2)) with X by lia.
    apply Z.mod_small. lia. }
  assert (Hyo : y_offs fb rot pt = Y).
  { rewrite (proj2 (mapper_as_div fb rot pt)), Ex, Ey.
    replace (if rot then if rot then w else u else if rot then - u else w)
      with w by (destruct rot; reflexivity).
    unfold w. replace (Y - v_active fb / 2 + v_active fb / 2) with Y by lia.
    apply Z.mod_small. lia. }
  split.
  { unfold in_bounds. rewrite Hxo, Hyo.
    apply andb_true_iff. split; apply Z.ltb_lt; lia. }
  split; [exact Hxo|]. split; [exact Hyo|].
  rewrite subpix_shift_mod, Ex, Ey.
  replace (if rot then - (if rot then - u else w) mod 4
           else (if rot then w else u) mod 4)
    with (u mod 4) by (destruct rot; [f_equal; lia | reflexivity]).
  lia.
Qed.

(** ** Draws and the rest of the frame *)

(** The effect of one draw, for the sample as latched over any registers. *)
Lemma draw_effect fb c p0 p1 p2 p3 d r m r' :
  fsm r = LATCH0 ->
  let pt := latched c p0 p1 p2 p3 r' in
  in_bounds fb (rotate_left c) pt = true ->
  let sh := subpix_shift (rotate_left c) pt in
  let adr := word_address fb (rotate_left c) pt in
  let s' := sys_run fb (r, m) (draw_schedule c p0 p1 p2 p3 d) in
  fsm (fst s') = LATCH0 /\
  pixel_byte sh (snd s' adr) = new_byte c (write_state fb c p0 p1 p2 p3 r m) /\
  intensity_sum (write_state fb c p0 p1 p2 p3 r m) =
    bits 4 8 (pixel_byte sh (m adr)) + unsigned 4 (intensity c) /\
  (forall sh', In sh' [0; 8; 16; 24] -> sh' <> sh ->
     pixel_byte sh' (snd s' adr) = pixel_byte sh' (m adr)) /\
  (forall a, a <> adr -> snd s' a = m a).
Proof.
  intros H0 pt Hb sh adr s'.
  assert (Esh : sh = subpix_shift (rotate_left c) (latched c p0 p1 p2 p3 reset_regs))
    by (apply subpix_shift_ext; reflexivity).
  assert (Eadr : adr = word_address fb (rotate_left c) (latched c p0 p1 p2 p3 reset_regs))
    by (apply word_address_ext; reflexivity).
  assert (Hb0 : in_bounds fb (rotate_left c) (latched c p0 p1 p2 p3 reset_regs) = true)
    by (rewrite <- Hb; apply in_bounds_ext; reflexivity).
  assert (Hbr : in_bounds fb (rotate_left c) (latched c p0 p1 p2 p3 r) = true)
    by (rewrite <- Hb; apply in_bounds_ext; reflexivity).
  destruct (draw_once_frame fb c p0 p1 p2 p3 r m d H0 Hb0) as (F1 & F2 & F3).
  fold s' in F1, F2, F3. rewrite <- Esh, <- Eadr in F1, F2. rewrite <- Eadr in F3.
  split.
  { unfold s'. rewrite (draw_once fb c p0 p1 p2 p3 r m d H0 Hbr). reflexivity. }
  split; [exact F1|]. split; [|split; [exact F2 | exact F3]].
  rewrite Esh, Eadr. apply write_state_sum.
Qed.

(** X8.  No update is lost between two draws made back to back: when the
    second point lands on another pixel (another word, or another byte of
    the same word), the byte written for the first point is still in
    memory after the second draw, and the byte written for the second
    point is the one packed from the word as the first draw left it. *)
Theorem back_to_back_draws_both_land :
  forall (fb : DMAFramebuffer) c p0 p1 p2 p3 d c' q0 q1 q2 q3 d' r m,
    fsm r = LATCH0 ->
    let pt := latched c p0 p1 p2 p3 r in
    let qt := latched c' q0 q1 q2 q3 r in
    in_bounds fb (rotate_left c) pt = true ->
    in_bounds fb (rotate_left c') qt = true ->
    let shp := subpix_shift (rotate_left c) pt in
    let adrp := word_address fb (rotate_left c) pt in
    let shq := subpix_shift (rotate_left c') qt in
    let adrq := word_address fb (rotate_left c') qt in
    adrp <> adrq \/ shp <> shq ->
    let s1 := sys_run fb (r, m) (draw_schedule c p0 p1 p2 p3 d) in
    let s2 := sys_run fb s1 (draw_schedule c' q0 q1 q2 q3 d') in
    fsm (fst s2) = LATCH0 /\
    pixel_byte shp (snd s2 adrp) = new_byte c (write_state fb c p0 p1 p2 p3 r m) /\
    pixel_byte shq (snd s2 adrq) =
      new_byte c' (write_state fb c' q0 q1 q2 q3 (fst s1) (snd s1)) /\
    bits 4 8 (pixel_byte shq (snd s2 adrq)) =
      Z.min 15 (bits 4 8 (pixel_byte shq (snd s1 adrq)) + unsigned 4 (intensity c')).
Proof.
  intros fb c p0 p1 p2 p3 d c' q0 q1 q2 q3 d' r m H0 pt qt Hp Hq
         shp adrp shq adrq Hne s1 s2.
  destruct (draw_effect fb c p0 p1 p2 p3 d r m r H0 Hp) as (A1 & A2 & _ & _ & _).
  fold pt shp adrp s1 in A1, A2.
  destruct s1 as [r1 m1] eqn:Es1. cbn [fst snd] in *.
  destruct (draw_effect fb c' q0 q1 q2 q3 d' r1 m1 r A1 Hq) as (B1 & B2 & B3 & B4 & B5).
  fold qt shq adrq s2 in B1, B2, B3, B4, B5.
  split; [exact B1|]. split; [|split; [exact B2|]].
  - rewrite <- A2.
    destruct (Z.eq_dec adrp adrq) as [Ea|Na].
    + assert (Ns : shp <> shq) by (destruct Hne; [contradiction | assumption]).
      rewrite Ea. apply B4; [|exact Ns].
      apply subpix_shift_aligned.
    + f_equal. now apply B5.
  - rewrite B2. unfold new_byte.
    assert (0 <= intensity_sum (write_state fb c' q0 q1 q2 q3 r1 m1) < 31)
      by (apply intensity_sum_range; apply (unsigned_range 4); lia).
    rewrite Cat_high; [| apply new_color_range | lia].
    now rewrite B3.
Qed.

(** X9.  A draw made under one configuration, held for all of its cycles,
    never dims the picture and touches one pixel only: every pixel byte
    other than the addressed one is unchanged, in the addressed word and in
    every other word, and the intensity of the addressed pixel does not
    decrease.  Holding the configuration matters: in the draw of
    [demo_toggled_draw], where the rotate flag changes between the read
    acknowledge and the write, the byte is inserted at another shift than
    the one it was extracted at, and a pixel goes from intensity 15 to 1. *)
Theorem draw_never_dims :
  (forall (fb : DMAFramebuffer) c p0 p1 p2 p3 d r m,
    fsm r = LATCH0 ->
    let pt := latched c p0 p1 p2 p3 r in
    in_bounds fb (rotate_left c) pt = true ->
    let sh := subpix_shift (rotate_left c) pt in
    let adr := word_address fb (rotate_left c) pt in
    let m' := snd (sys_run fb (r, m) (draw_schedule c p0 p1 p2 p3 d)) in
    forall a sh', In sh' [0; 8; 16; 24] ->
      (a <> adr \/ sh' <> sh -> pixel_byte sh' (m' a) = pixel_byte sh' (m a)) /\
      bits 4 8 (pixel_byte sh' (m a)) <= bits 4 8 (pixel_byte sh' (m' a))) /\
  (let s' := sys_run demo_fb (demo_idle, demo_mem_lit) demo_toggled_draw in
   fsm demo_idle = LATCH0 /\ fsm (fst s') = LATCH0 /\
   in_bounds demo_fb false (latched (demo_cfg 1) 1 0 0 0 demo_idle) = true /\
   bits 4 8 (pixel_byte 0 (demo_mem_lit 264)) = 15 /\
   bits 4 8 (pixel_byte 0 (snd s' 264)) = 1).
Proof.
  split; [|vm_compute; repeat split; reflexivity].
  intros fb c p0 p1 p2 p3 d r m H0 pt Hb sh adr m' a sh' Hin.
  destruct (draw_effect fb c p0 p1 p2 p3 d r m r H0 Hb) as (_ & A2 & A3 & A4 & A5).
  fold pt sh adr in A2, A3, A4, A5. fold m' in A2, A4, A5.
  assert (Hsame : a <> adr \/ sh' <> sh ->
                  pixel_byte sh' (m' a) = pixel_byte sh' (m a)).
  { intros Hne. destruct (Z.eq_dec a adr) as [->|Na].
    - apply A4; [exact Hin|]. destruct Hne; [contradiction | assumption].
    - f_equal. now apply A5. }
  split; [exact Hsame|].
  destruct (Z.eq_dec a adr) as [Ea|Na]; [|rewrite Hsame by (now left); lia].
  destruct (Z.eq_dec sh' sh) as [Es|Ns]; [|rewrite Hsame by (now right); lia].
  subst a sh'. rewrite A2. unfold new_byte.
  assert (0 <= intensity_sum (write_state fb c p0 p1 p2 p3 r m) < 31)
    by (apply intensity_sum_range; apply (unsigned_range 4); lia).
  rewrite Cat_high; [| apply new_color_range | lia].
  rewrite A3.
  assert (0 <= bits 4 8 (pixel_byte sh (m adr)) < 16) by (apply (bits_range 4 8); lia).
  assert (0 <= unsigned 4 (intensity c)) by (apply (unsigned_range 4); lia).
  lia.
Qed.

(** * SynthPeripheral: committing a mixing-matrix coefficient *)

Section MatrixProps.

Variables shape_o_x shape_i_y shape_v : Z -> Z.

Local Abbreviation mstep := (matrix_step shape_o_x shape_i_y shape_v).
Local Abbreviation mrun := (matrix_run shape_o_x shape_i_y shape_v).

Lemma matrix_step_valid s i :
  c_valid s = matrix_busy s -> c_valid (mstep s i) = matrix_busy (mstep s i).
Proof.
  unfold matrix_step. destruct s as [b v ox iy cv]; cbn.
  intros ->. destruct (w_stb i), b, (c_ready i); reflexivity.
Qed.

Lemma matrix_run_valid ins : forall s,
  c_valid s = matrix_busy s -> c_valid (mrun s ins) = matrix_busy (mrun s ins).
Proof.
  induction ins as [|i ins IH]; intros s Hs; [exact Hs|].
  apply (IH (mstep s i)). now apply matrix_step_valid.
Qed.

(** X10.  In every run from reset [matrix.c.valid] equals the busy flag
    that the SoC reads back.  While busy, a coefficient is held: the payload
    registers keep their value in every cycle, [valid] stays high until a
    cycle with [ready], and CSR writes strobed meanwhile are dropped (the
    next state is the same as without the strobe).  The cycle with [ready]
    clears busy and [valid] together. *)
Theorem matrix_coefficient_held :
  (forall ins,
     c_valid (mrun matrix_reset ins) = matrix_busy (mrun matrix_reset ins) /\
     matrix_busy_r_data (mrun matrix_reset ins) =
       (if c_valid (mrun matrix_reset ins) then 1 else 0)) /\
  (forall s i, matrix_busy s = true ->
     matrix_payload (mstep s i) = matrix_payload s /\
     mstep s i = mstep s (mkMatrixIn false 0 0 0 (c_ready i)) /\
     (c_ready i = false -> mstep s i = s) /\
     (c_ready i = true ->
        matrix_busy (mstep s i) = false /\ c_valid (mstep s i) = false)) /\
  (forall s i, matrix_busy s = false -> w_stb i = true ->
     mstep s i =
       mkMatrixRegs true true
         (shape_o_x (w_o_x i)) (shape_i_y (w_i_y i)) (shape_v (w_value i))).
Proof.
  split; [|split].
  - intros ins.
    pose proof (matrix_run_valid ins matrix_reset eq_refl) as H.
    split; [exact H|]. unfold matrix_busy_r_data. now rewrite H.
  - intros s i Hb. unfold matrix_step, matrix_payload.
    destruct s as [b v ox iy cv]; cbn in *. subst b.
    rewrite !andb_false_r. cbn.
    destruct (c_ready i); repeat split; try reflexivity; discriminate.
  - intros s i Hb Hw. unfold matrix_step. now rewrite Hb, Hw.
Qed.

Lemma matrix_ledger ins : forall s,
  c_valid s = matrix_busy s ->
  (if matrix_busy s then [matrix_payload s] else [])
    ++ matrix_commits shape_o_x shape_i_y shape_v s ins =
  matrix_transfers shape_o_x shape_i_y shape_v s ins
    ++ (if matrix_busy (mrun s ins) then [matrix_payload (mrun s ins)] else []).
Proof.
  induction ins as [|i ins IH]; intros s Hs.
  - cbn. now rewrite app_nil_r.
  - cbn [matrix_commits matrix_transfers].
    change (mrun s (i :: ins)) with (mrun (mstep s i) ins).
    rewrite <- app_assoc, <- (IH (mstep s i) (matrix_step_valid s i Hs)).
    rewrite !app_assoc. f_equal.
    unfold matrix_step, matrix_payload.
    destruct s as [b v ox iy cv]; cbn in *. subst v.
    destruct b, (w_stb i), (c_ready i); reflexivity.
Qed.

(** X11.  Every coefficient committed by a CSR write is handed to the
    mixing matrix exactly once, unchanged and in the order written: in any
    run from reset the coefficients handed over, followed by the one still
    pending if the logic is busy, are exactly the coefficients committed. *)
Theorem matrix_coefficients_delivered_once :
  forall ins,
    matrix_commits shape_o_x shape_i_y shape_v matrix_reset ins =
    matrix_transfers shape_o_x shape_i_y shape_v matrix_reset ins
      ++ (if matrix_busy (mrun matrix_reset ins)
          then [matrix_payload (mrun matrix_reset ins)] else []).
Proof.
  intros ins. exact (matrix_ledger ins matrix_reset eq_refl).
Qed.

End MatrixProps.

(** * The pixel rate of the engine *)

Lemma cycles_to_ready_step fb r i :
  fb_enable i = true ->
  (cycles_to_ready (fsm r) <= S (cycles_to_ready (fsm (step fb r i))))%nat.
Proof.
  intros He. unfold step, outputs. rewrite He. cbn [negb].
  destruct r as [st sx sy sp sc si pr ps bs ba]; cbn [fsm].
  destruct st; cbn [andb];
    repeat match goal with |- context [if ?b then _ else _] => destruct b end;
    cbn [fsm set_fsm latch_sample latch_address latch_read cycles_to_ready];
    lia.
Qed.

Lemma cycles_to_ready_run fb ins : forall r,
  Forall (fun i => fb_enable i = true) ins ->
  (cycles_to_ready (fsm r) <= length ins + cycles_to_ready (fsm (run fb r ins)))%nat.
Proof.
  induction ins as [|i ins IH]; intros r Hall; [cbn; lia|].
  inversion Hall as [|? ? He Hall']; subst.
  change (run fb r (i :: ins)) with (run fb (step fb r i) ins).
  pose proof (cycles_to_ready_step fb r i He).
  pose proof (IH (step fb r i) Hall'). cbn [length]. lia.
Qed.

(** X12.  A point that passes the bounds check occupies the engine for at
    least seven cycles: whatever the memory and the stream do, [ready] is
    low in each of the six cycles that follow the capture (framebuffer
    enabled).  The bound is met: when the read and the write are
    acknowledged at once, the engine is back in LATCH0 at the seventh clock
    edge. *)
Theorem draw_takes_seven_cycles :
  forall (fb : DMAFramebuffer) r i0 i1,
    fsm r = LATCH0 -> valid i0 = true ->
    fb_enable i0 = true -> fb_enable i1 = true ->
    in_bounds fb (rotate_left (cfg i1)) (step fb r i0) = true ->
    (forall c, ready (outputs c (run fb r [i0])) = false) /\
    (forall ins c,
       Forall (fun i => fb_enable i = true) ins -> (length ins < 5)%nat ->
       ready (outputs c (run fb r (i0 :: i1 :: ins))) = false) /\
    (forall i2 i3 i4 i5 i6,
       fb_enable i2 = true -> fb_enable i3 = true -> fb_enable i4 = true ->
       fb_enable i5 = true -> fb_enable i6 = true ->
       bus_ack i2 = true -> bus_ack i6 = true ->
       fsm (run fb r [i0; i1; i2; i3; i4; i5; i6]) = LATCH0).
Proof.
  intros fb r i0 i1 H0 Hv E0 E1 Hb.
  assert (S1 : step fb r i0 = latch_sample i0 r)
    by (unfold step; now rewrite E0, H0, Hv).
  assert (S2 : step fb (step fb r i0) i1 =
               latch_address fb (rotate_left (cfg i1)) (step fb r i0)).
  { unfold step at 1. rewrite E1. cbn [negb].
    rewrite S1 at 1. cbn [fsm latch_sample]. now rewrite Hb. }
  split; [|split].
  - intros c. cbn [run fold_left]. rewrite S1. reflexivity.
  - intros ins c Hall Hlen.
    change (run fb r (i0 :: i1 :: ins))
      with (run fb (step fb (step fb r i0) i1) ins).
    rewrite S2.
    pose proof (cycles_to_ready_run fb ins
                  (latch_address fb (rotate_left (cfg i1)) (step fb r i0)) Hall) as Hc.
    cbn [fsm latch_address cycles_to_ready] in Hc.
    unfold outputs.
    destruct (fsm (run fb (latch_address fb (rotate_left (cfg i1)) (step fb r i0)) ins));
      cbn [cycles_to_ready ready] in Hc |- *; try reflexivity; lia.
  - intros i2 i3 i4 i5 i6 E2 E3 E4 E5 E6 A2 A6.
    destruct (read_to_write fb
                (latch_address fb (rotate_left (cfg i1)) (step fb r i0))
                i2 i3 i4 i5 eq_refl A2 E2 E3 E4 E5)
      as (_ & _ & _ & Hw).
    unfold run in Hw |- *. cbn [fold_left] in Hw |- *.
    rewrite S2, Hw.
    unfold step, outputs. rewrite E6. cbn [negb fsm set_fsm bus_stb andb].
    now rewrite A6.
Qed.

(** * Worked instances of the further properties *)

Lemma demo_fb_fits :
  0 <= fb_base demo_fb /\
  v_active demo_fb * fb_hwords demo_fb <= 2 ^ 32 /\
  fb_base demo_fb + v_active demo_fb * fb_hwords demo_fb <= 2 ^ addr_width demo_fb.
Proof. vm_compute. repeat split; discriminate. Qed.

Lemma demo_read_state_wf : wf_regs demo_read_state.
Proof. unfold wf_regs. vm_compute. repeat split; discriminate. Qed.

Lemma enable_is_a_kick_witness :
  (fsm reset_regs = OFF /\
   fsm (run demo_fb reset_regs [demo_unkicked; demo_disabled; demo_unkicked]) = OFF) /\
  (enable (cfg demo_stall) = true /\
   step demo_fb reset_regs demo_stall = set_fsm LATCH0 reset_regs) /\
  (fsm demo_read_state <> OFF /\
   fsm (run demo_fb demo_read_state [demo_unkicked; demo_unkicked]) <> OFF).
Proof.
  destruct (enable_is_a_kick demo_fb) as (Hoff & Hkick & Hon).
  split; [|split].
  - split; [reflexivity|].
    refine (proj1 (Hoff reset_regs [demo_unkicked; demo_disabled; demo_unkicked]
                        eq_refl _)).
    apply Forall_cons; [right; reflexivity|].
    apply Forall_cons; [left; reflexivity|].
    apply Forall_cons; [right; reflexivity|]. apply Forall_nil.
  - split; [reflexivity|].
    exact (Hkick reset_regs demo_stall eq_refl eq_refl eq_refl).
  - assert (Hn : fsm demo_read_state <> OFF) by (cbn; discriminate).
    split; [exact Hn|].
    apply (Hon demo_read_state [demo_unkicked; demo_unkicked] Hn).
    repeat constructor.
Defined.

Lemma disable_resets_witness :
  fb_enable demo_disabled = false /\
  run demo_fb demo_write_state [demo_disabled; demo_unkicked; demo_disabled] = reset_regs.
Proof.
  split; [reflexivity|].
  refine (proj1 (disable_resets demo_fb demo_write_state demo_disabled
                   [demo_unkicked; demo_disabled] eq_refl _)).
  apply Forall_cons; [right; reflexivity|].
  apply Forall_cons; [left; reflexivity|]. apply Forall_nil.
Defined.

Lemma unacknowledged_request_blocks_witness :
  fsm demo_read_state = READ /\
  run demo_fb demo_read_state [demo_stall; demo_stall; demo_stall] = demo_read_state.
Proof.
  split; [reflexivity|].
  refine (proj1 (unacknowledged_request_blocks demo_fb demo_read_state
                   [demo_stall; demo_stall; demo_stall] (or_introl eq_refl) _)).
  repeat constructor.
Defined.

Lemma requests_stay_in_framebuffer_witness :
  (reachable demo_fb demo_write_state /\
   bus_stb (outputs (demo_cfg 1) demo_write_state) = true) /\
  bus_sel demo_write_state = 0xf /\
  fb_base demo_fb <= bus_adr demo_write_state
    < fb_base demo_fb + v_active demo_fb * fb_hwords demo_fb.
Proof.
  assert (Hr : reachable demo_fb demo_write_state)
    by (apply run_reachable; constructor).
  split; [split; [exact Hr | reflexivity]|].
  destruct demo_fb_fits as (F1 & F2 & F3).
  exact (requests_stay_in_framebuffer demo_fb demo_write_state (demo_cfg 1)
           F1 F2 F3 Hr eq_refl).
Defined.

Lemma bounds_check_is_two_sided_witness :
  (wf_regs demo_write_state /\ 0 <= fb_hwords demo_fb <= 57344 /\
   0 <= v_active demo_fb <= 65536 /\
   in_bounds demo_fb false demo_write_state = true) /\
  0 <= fb_hwords demo_fb / 2 + Z.shiftr (sample_x demo_write_state) 2
    < fb_hwords demo_fb /\
  0 <= sample_y demo_write_state + v_active demo_fb / 2 < v_active demo_fb.
Proof.
  assert (H1 : 0 <= fb_hwords demo_fb <= 57344) by (vm_compute; split; discriminate).
  assert (H2 : 0 <= v_active demo_fb <= 65536) by (vm_compute; split; discriminate).
  split; [repeat split; try reflexivity; try exact demo_write_state_wf;
          try apply H1; apply H2|].
  destruct (bounds_check_is_two_sided demo_fb demo_write_state
              demo_write_state_wf H1 H2) as [Hu _].
  exact (proj1 Hu eq_refl).
Defined.

Lemma pixel_mapping_injective_witness :
  (wf_regs demo_write_state /\ wf_regs demo_read_state /\
   in_bounds demo_fb false demo_write_state = true /\
   in_bounds demo_fb false demo_read_state = true /\
   word_address demo_fb false demo_write_state =
     word_address demo_fb false demo_read_state /\
   subpix_shift false demo_write_state = subpix_shift false demo_read_state) /\
  sample_x demo_write_state = sample_x demo_read_state /\
  sample_y demo_write_state = sample_y demo_read_state.
Proof.
  split.
  - split; [exact demo_write_state_wf|]. split; [exact demo_read_state_wf|].
    repeat split; reflexivity.
  - destruct demo_fb_fits as (F1 & F2 & F3).
    exact (pixel_mapping_injective demo_fb false demo_write_state demo_read_state
             demo_write_state_wf demo_read_state_wf F1 F2 F3
             eq_refl eq_refl eq_refl eq_refl).
Defined.

Lemma every_pixel_drawable_witness :
  (0 <= 3 < fb_hwords demo_fb /\ 0 <= 5 < v_active demo_fb /\
   fb_hwords demo_fb <= 16383 /\ v_active demo_fb <= 65536) /\
  x_offs demo_fb false (latched (demo_cfg 1) (-18) (-11) 0 0 demo_idle) = 3 /\
  y_offs demo_fb false (latched (demo_cfg 1) (-18) (-11) 0 0 demo_idle) = 5 /\
  subpix_shift false (latched (demo_cfg 1) (-18) (-11) 0 0 demo_idle) = 8 * 2.
Proof.
  assert (HX : 0 <= 3 < fb_hwords demo_fb) by (vm_compute; split; [discriminate | reflexivity]).
  assert (HY : 0 <= 5 < v_active demo_fb) by (vm_compute; split; [discriminate | reflexivity]).
  assert (Hk : 0 <= 2 < 4) by lia.
  assert (Hh : fb_hwords demo_fb <= 16383) by (vm_compute; discriminate).
  assert (Hv : v_active demo_fb <= 65536) by (vm_compute; discriminate).
  split; [repeat split; try apply HX; try apply HY; assumption|].
  destruct (every_pixel_drawable demo_fb (demo_cfg 1) 3 5 2 0 0 demo_idle
              HX HY Hk Hh Hv eq_refl eq_refl eq_refl eq_refl)
    as (_ & _ & Hx & Hy & Hs).
  split; [exact Hx|]. split; [exact Hy | exact Hs].
Defined.

Lemma back_to_back_draws_both_land_witness :
  let s2 := sys_run demo_fb
              (sys_run demo_fb (demo_idle, demo_mem)
                 (draw_schedule (demo_cfg 1) 0 0 0 0 (1, 0)%nat))
              (draw_schedule (demo_cfg 3) 1 0 0 0 (0, 2)%nat) in
  (fsm demo_idle = LATCH0 /\
   in_bounds demo_fb false (latched (demo_cfg 1) 0 0 0 0 demo_idle) = true /\
   in_bounds demo_fb false (latched (demo_cfg 3) 1 0 0 0 demo_idle) = true /\
   subpix_shift false (latched (demo_cfg 1) 0 0 0 0 demo_idle) <>
   subpix_shift false (latched (demo_cfg 3) 1 0 0 0 demo_idle)) /\
  pixel_byte 0 (snd s2 264) = 0x15 /\ pixel_byte 8 (snd s2 264) = 0x35.
Proof.
  intros s2.
  assert (Hne : subpix_shift false (latched (demo_cfg 1) 0 0 0 0 demo_idle) <>
                subpix_shift false (latched (demo_cfg 3) 1 0 0 0 demo_idle))
    by (vm_compute; discriminate).
  split; [repeat split; try reflexivity; exact Hne|].
  destruct (back_to_back_draws_both_land demo_fb
              (demo_cfg 1) 0 0 0 0 (1, 0)%nat (demo_cfg 3) 1 0 0 0 (0, 2)%nat
              demo_idle demo_mem eq_refl eq_refl eq_refl (or_intror Hne))
    as (_ & Hp & Hq & _).
  split; [exact Hp | exact Hq].
Defined.

Lemma draw_never_dims_witness :
  (fsm demo_idle = LATCH0 /\
   in_bounds demo_fb false (latched (demo_cfg 1) 0 0 0 0 demo_idle) = true) /\
  bits 4 8 (pixel_byte 0 (demo_mem 264)) <=
  bits 4 8 (pixel_byte 0
    (snd (sys_run demo_fb (demo_idle, demo_mem)
            (draw_schedule (demo_cfg 1) 0 0 0 0 (1, 0)%nat)) 264)).
Proof.
  split; [split; reflexivity|].
  refine (proj2 (proj1 draw_never_dims demo_fb (demo_cfg 1) 0 0 0 0 (1, 0)%nat
                   demo_idle demo_mem eq_refl eq_refl 264 0 _)).
  left. reflexivity.
Defined.

Lemma matrix_coefficient_held_witness :
  matrix_busy demo_matrix_pending = true /\
  matrix_step (fun v => v) (fun v => v) (fun v => v)
              demo_matrix_pending demo_matrix_write = demo_matrix_pending.
Proof.
  split; [reflexivity|].
  destruct (matrix_coefficient_held (fun v => v) (fun v => v) (fun v => v))
    as (_ & Hheld & _).
  destruct (Hheld demo_matrix_pending demo_matrix_write eq_refl)
    as (_ & _ & Hstay & _).
  exact (Hstay eq_refl).
Defined.

Lemma draw_takes_seven_cycles_witness :
  (fsm demo_idle = LATCH0 /\ valid demo_stall = true /\
   in_bounds demo_fb (rotate_left (cfg demo_stall))
             (step demo_fb demo_idle demo_stall) = true) /\
  ready (outputs (demo_cfg 1)
           (run demo_fb demo_idle
                [demo_stall; demo_stall; demo_read_ack; demo_stall;
                 demo_stall; demo_stall])) = false /\
  fsm (run demo_fb demo_idle
           [demo_stall; demo_stall; demo_read_ack; demo_stall;
            demo_stall; demo_stall; demo_read_ack]) = LATCH0.
Proof.
  split; [repeat split; reflexivity|].
  destruct (draw_takes_seven_cycles demo_fb demo_idle demo_stall demo_stall
              eq_refl eq_refl eq_refl eq_refl eq_refl) as (_ & Hbusy & Hdone).
  split.
  - apply (Hbusy [demo_read_ack; demo_stall; demo_stall; demo_stall] (demo_cfg 1)).
    + repeat constructor.
    + cbn. lia.
  - exact (Hdone demo_read_ack demo_stall demo_stall demo_stall demo_read_ack
             eq_refl eq_refl eq_refl eq_refl eq_refl eq_refl eq_refl).
Defined.
